(** * Shower monitor of EMS-ESP32 (src/shower.cpp)

    A shallow embedding of [emsesp::Shower]: the polling state machine that
    recognises a shower from the "hot water tap active" signal, publishes
    its state and duration, and may send a shot of cold water.

    - every [uint32_t] member is a [Z] in [0, 2^32); subtraction wraps
      ([sub32]);
    - the class members and the two function-level statics
      ([force_coldshot], [old_shower_state_]) form one record, threaded
      through the calls by a small state-and-output monad;
    - what a call reads from its surroundings (uptime, tap signal, wall
      clock, MQTT settings) is an [Env] record, what it sends out (MQTT
      publications, the boiler command) is a list of [Effect]s in program
      order.  Log lines are not part of the output. *)

From Stdlib Require Import ZArith List String Bool Lia.
Import ListNotations.
Local Open Scope Z_scope.

(** ** 32-bit unsigned arithmetic *)

Definition UINT32_MAX : Z := 4294967295.

Definition wrap32 (z : Z) : Z := z mod (UINT32_MAX + 1).

(** [a - b] on two [uint32_t] operands. *)
Definition sub32 (a b : Z) : Z := wrap32 (a - b).

(** [a * b] stored into a [uint32_t]. *)
Definition mul32 (a b : Z) : Z := wrap32 (a * b).

(** ** The object and its surroundings *)

(** Members of [class Shower], followed by the file-level static
    [force_coldshot] and the static local [old_shower_state_] of
    [set_shower_state]. *)
Record Shower : Type := mkShower {
  shower_timer_          : bool;
  shower_alert_          : bool;
  shower_alert_trigger_  : Z;
  shower_alert_coldshot_ : Z;
  ha_configdone_         : bool;
  shower_state_          : bool;
  timer_start_           : Z;
  timer_pause_           : Z;
  duration_              : Z;
  alert_timer_start_     : Z;
  doing_cold_shot_       : bool;
  force_coldshot         : bool;
  old_shower_state_      : bool
}.

(** The part of [WebSettings] that [start] reads. *)
Record WebSettings : Type := mkWebSettings {
  shower_timer          : bool;
  shower_alert          : bool;
  shower_alert_trigger  : Z;   (* minutes *)
  shower_alert_coldshot : Z    (* seconds *)
}.

(** What one call may read from outside the object.  [loop] reads the
    uptime once on entry ([get_uptime]); [shower_alert_start] reads it a
    second time ([get_uptime_alert]). *)
Record Env : Type := mkEnv {
  get_uptime       : Z;      (* uuid::get_uptime() in loop *)
  tap_water_active : bool;   (* EMSESP::tap_water_active() *)
  wall_time        : Z;      (* time(nullptr) *)
  get_uptime_alert : Z;      (* uuid::get_uptime() in shower_alert_start *)
  ha_enabled       : bool;   (* Mqtt::ha_enabled() *)
  queue_ha_result  : bool    (* result of the first Mqtt::queue_ha *)
}.

Inductive HaTopic : Type :=
| shower_active_config
| shower_duration_config
| shower_timestamp_config.

(** Output of the object, in program order.  The timestamp of a
    [shower_data] record is kept as the [time_t] that [strftime] prints. *)
Inductive Effect : Type :=
| Mqtt_publish_shower_active (state : bool)
| Mqtt_publish_shower_data (duration : Z) (timestamp : option Z)
| Command_call_wwtapactivated (value : bool)
| Mqtt_queue_ha (topic : HaTopic).

(** ** Field updates *)

Definition set_config (t a : bool) (tr cs : Z) (s : Shower) : Shower :=
  mkShower t a tr cs (ha_configdone_ s) (shower_state_ s) (timer_start_ s)
           (timer_pause_ s) (duration_ s) (alert_timer_start_ s)
           (doing_cold_shot_ s) (force_coldshot s) (old_shower_state_ s).

Definition set_ha_configdone_ (v : bool) (s : Shower) : Shower :=
  mkShower (shower_timer_ s) (shower_alert_ s) (shower_alert_trigger_ s)
           (shower_alert_coldshot_ s) v (shower_state_ s) (timer_start_ s)
           (timer_pause_ s) (duration_ s) (alert_timer_start_ s)
           (doing_cold_shot_ s) (force_coldshot s) (old_shower_state_ s).

Definition set_shower_state_ (v : bool) (s : Shower) : Shower :=
  mkShower (shower_timer_ s) (shower_alert_ s) (shower_alert_trigger_ s)
           (shower_alert_coldshot_ s) (ha_configdone_ s) v (timer_start_ s)
           (timer_pause_ s) (duration_ s) (alert_timer_start_ s)
           (doing_cold_shot_ s) (force_coldshot s) (old_shower_state_ s).

Definition set_timer_start_ (v : Z) (s : Shower) : Shower :=
  mkShower (shower_timer_ s) (shower_alert_ s) (shower_alert_trigger_ s)
           (shower_alert_coldshot_ s) (ha_configdone_ s) (shower_state_ s) v
           (timer_pause_ s) (duration_ s) (alert_timer_start_ s)
           (doing_cold_shot_ s) (force_coldshot s) (old_shower_state_ s).

Definition set_timer_pause_ (v : Z) (s : Shower) : Shower :=
  mkShower (shower_timer_ s) (shower_alert_ s) (shower_alert_trigger_ s)
           (shower_alert_coldshot_ s) (ha_configdone_ s) (shower_state_ s)
           (timer_start_ s) v (duration_ s) (alert_timer_start_ s)
           (doing_cold_shot_ s) (force_coldshot s) (old_shower_state_ s).

Definition set_duration_ (v : Z) (s : Shower) : Shower :=
  mkShower (shower_timer_ s) (shower_alert_ s) (shower_alert_trigger_ s)
           (shower_alert_coldshot_ s) (ha_configdone_ s) (shower_state_ s)
           (timer_start_ s) (timer_pause_ s) v (alert_timer_start_ s)
           (doing_cold_shot_ s) (force_coldshot s) (old_shower_state_ s).

Definition set_alert_timer_start_ (v : Z) (s : Shower) : Shower :=
  mkShower (shower_timer_ s) (shower_alert_ s) (shower_alert_trigger_ s)
           (shower_alert_coldshot_ s) (ha_configdone_ s) (shower_state_ s)
           (timer_start_ s) (timer_pause_ s) (duration_ s) v
           (doing_cold_shot_ s) (force_coldshot s) (old_shower_state_ s).

Definition set_doing_cold_shot_ (v : bool) (s : Shower) : Shower :=
  mkShower (shower_timer_ s) (shower_alert_ s) (shower_alert_trigger_ s)
           (shower_alert_coldshot_ s) (ha_configdone_ s) (shower_state_ s)
           (timer_start_ s) (timer_pause_ s) (duration_ s)
           (alert_timer_start_ s) v (force_coldshot s) (old_shower_state_ s).

Definition set_force_coldshot (v : bool) (s : Shower) : Shower :=
  mkShower (shower_timer_ s) (shower_alert_ s) (shower_alert_trigger_ s)
           (shower_alert_coldshot_ s) (ha_configdone_ s) (shower_state_ s)
           (timer_start_ s) (timer_pause_ s) (duration_ s)
           (alert_timer_start_ s) (doing_cold_shot_ s) v (old_shower_state_ s).

Definition set_old_shower_state_ (v : bool) (s : Shower) : Shower :=
  mkShower (shower_timer_ s) (shower_alert_ s) (shower_alert_trigger_ s)
           (shower_alert_coldshot_ s) (ha_configdone_ s) (shower_state_ s)
           (timer_start_ s) (timer_pause_ s) (duration_ s)
           (alert_timer_start_ s) (doing_cold_shot_ s) (force_coldshot s) v.

(** ** State and output monad *)

Definition M (A : Type) : Type := Shower -> A * Shower * list Effect.

Definition ret {A} (a : A) : M A := fun s => (a, s, []).

Definition bind {A B} (m : M A) (f : A -> M B) : M B :=
  fun s =>
    let '(a, s1, e1) := m s in
    let '(b, s2, e2) := f a s1 in
    (b, s2, e1 ++ e2).

Definition get : M Shower := fun s => (s, s, []).
Definition modify (f : Shower -> Shower) : M unit := fun s => (tt, f s, []).
Definition emit (e : Effect) : M unit := fun s => (tt, s, [e]).

Notation "x <- m ;; k" := (bind m (fun x => k))
  (at level 61, m at next level, right associativity).
Notation "m ;; k" := (bind m (fun _ => k))
  (at level 61, right associativity).

(** [if (c) { m }] with no else branch. *)
Definition when (c : bool) (m : M unit) : M unit := if c then m else ret tt.

Definition state_of {A} (r : A * Shower * list Effect) : Shower := snd (fst r).
Definition output_of {A} (r : A * Shower * list Effect) : list Effect := snd r.

(** ** Shower::set_shower_state, shower_alert_start, shower_alert_stop *)

Definition set_shower_state (state force : bool) (env : Env) : M unit :=
  modify (set_shower_state_ state) ;;
  s <- get ;;
  if Bool.eqb (shower_state_ s) (old_shower_state_ s) && negb force then
    ret tt
  else
    modify (set_old_shower_state_ (shower_state_ s)) ;;
    emit (Mqtt_publish_shower_active (shower_state_ s)) ;;
    when (ha_enabled env && (negb (ha_configdone_ s) || force))
      (emit (Mqtt_queue_ha shower_active_config) ;;
       modify (set_ha_configdone_ (queue_ha_result env)) ;;
       emit (Mqtt_queue_ha shower_duration_config) ;;
       emit (Mqtt_queue_ha shower_timestamp_config)).

Definition shower_alert_start (env : Env) : M unit :=
  emit (Command_call_wwtapactivated false) ;;
  modify (set_doing_cold_shot_ true) ;;
  modify (set_force_coldshot false) ;;
  modify (set_alert_timer_start_ (get_uptime_alert env)).

Definition shower_alert_stop : M unit :=
  s <- get ;;
  when (doing_cold_shot_ s)
    (emit (Command_call_wwtapactivated true) ;;
     modify (set_doing_cold_shot_ false) ;;
     modify (set_force_coldshot false)).

(** ** Shower::start and the "coldshot" command it registers *)

(** The lambda registered with [Command::add]: the message it stores in
    [output] and its return value. *)
Definition coldshot_command : M (string * bool) :=
  s <- get ;;
  if shower_state_ s then
    modify (set_force_coldshot true) ;;
    ret ("OK"%string, true)
  else
    modify (set_force_coldshot false) ;;
    ret ("Coldshot failed. Shower not active"%string, true).

Definition start (settings : WebSettings) (env : Env) : M unit :=
  modify (set_config (shower_timer settings) (shower_alert settings)
                     (mul32 (shower_alert_trigger settings) 60000)
                     (mul32 (shower_alert_coldshot settings) 1000)) ;;
  s <- get ;;
  when (shower_timer_ s) (set_shower_state false true env).

(** Modelled from the spec: the object before [start], which the missing
    header and constructor would give.  Every timestamp is unset (0) and
    every flag false: "IDLE is initial", "unset (sentinel 0) means no
    session in progress".  The two statics are [false] by their
    initialisers in the source. *)
Definition initial : Shower :=
  mkShower false false 0 0 false false 0 0 0 0 false false false.

(** ** What the MQTT side sees *)

(** What the MQTT side sees of a run, Home Assistant discovery topics
    apart: the [shower_active] publications (state changes) and the
    [shower_data] publications (session summaries: duration in seconds
    and, with a plausible wall clock, the timestamp). *)
Inductive Event : Type :=
| StateChanged (active : bool)
| SessionSummary (duration_seconds : Z) (timestamp : option Z).

Definition events (es : list Effect) : list Event :=
  flat_map (fun e => match e with
                     | Mqtt_publish_shower_active b => [StateChanged b]
                     | Mqtt_publish_shower_data d t => [SessionSummary d t]
                     | _ => []
                     end) es.

(** ** Shower::loop *)

(** The three constants of the missing header [shower.h], taken as
    parameters: [uint32_t] values in milliseconds. *)
Class Thresholds : Type := mkThresholds {
  SHOWER_MIN_DURATION : Z;   (* before the tap activity counts as a shower *)
  SHOWER_PAUSE_TIME   : Z;   (* longest switch-off inside one shower *)
  SHOWER_OFFSET_TIME  : Z;   (* grace time taken off the measured duration *)
  SHOWER_MIN_DURATION_u32 : 0 <= SHOWER_MIN_DURATION <= UINT32_MAX;
  SHOWER_PAUSE_TIME_u32   : 0 <= SHOWER_PAUSE_TIME <= UINT32_MAX;
  SHOWER_OFFSET_TIME_u32  : 0 <= SHOWER_OFFSET_TIME <= UINT32_MAX
}.

Section Loop.

Context {K : Thresholds}.

(** Body of the [if (timer_pause_ && ...)] block: the shower has finished. *)
Definition finish_shower (env : Env) : M unit :=
  s <- get ;;
  when (SHOWER_OFFSET_TIME <? sub32 (timer_pause_ s) (timer_start_ s))
    (modify (set_duration_
               (sub32 (sub32 (timer_pause_ s) (timer_start_ s))
                      SHOWER_OFFSET_TIME)) ;;
     s <- get ;;
     when (SHOWER_MIN_DURATION <? duration_ s)
       (emit (Mqtt_publish_shower_data
                (duration_ s / 1000)
                (if 1576800000 <? wall_time env
                 then Some (wall_time env) else None)))) ;;
  modify (set_timer_start_ 0) ;;
  modify (set_timer_pause_ 0) ;;
  modify (set_doing_cold_shot_ false) ;;
  modify (set_alert_timer_start_ 0) ;;
  set_shower_state false false env.

Definition loop (env : Env) : M unit :=
  s <- get ;;
  if negb (shower_timer_ s) then ret tt
  else
    let time_now := get_uptime env in
    if negb (doing_cold_shot_ s) then
      if tap_water_active env then
        if timer_start_ s =? 0 then
          modify (set_timer_start_ time_now) ;;
          modify (set_timer_pause_ 0) ;;
          modify (set_doing_cold_shot_ false) ;;
          modify (set_duration_ 0) ;;
          modify (set_shower_state_ false)
        else if negb (shower_state_ s)
                && (SHOWER_MIN_DURATION <? sub32 time_now (timer_start_ s))
        then set_shower_state true false env
        else if (shower_alert_ s
                 && (shower_alert_trigger_ s <? sub32 time_now (timer_start_ s)))
                || force_coldshot s
        then shower_alert_start env
        else ret tt
      else
        when (negb (timer_start_ s =? 0) && (timer_pause_ s =? 0))
          (modify (set_timer_pause_ time_now)) ;;
        s <- get ;;
        when (negb (timer_pause_ s =? 0)
              && (SHOWER_PAUSE_TIME <? sub32 time_now (timer_pause_ s)))
          (finish_shower env)
    else
      when (shower_alert_coldshot_ s <? sub32 time_now (alert_timer_start_ s))
        shower_alert_stop.

(** ** Runs *)

(** One entry into the object: a poll of [loop] or the "coldshot" command. *)
Inductive Call : Type :=
| Loop (env : Env)
| Coldshot.

Definition call (c : Call) : M unit :=
  match c with
  | Loop env => loop env
  | Coldshot => coldshot_command ;; ret tt
  end.

Fixpoint run (cs : list Call) : M unit :=
  match cs with
  | [] => ret tt
  | c :: cs' => call c ;; run cs'
  end.

(** The state and the output after the calls [cs] from [s]. *)
Definition after (s : Shower) (cs : list Call) : Shower := state_of (run cs s).
Definition output (s : Shower) (cs : list Call) : list Effect :=
  output_of (run cs s).

(** The summary [finish_shower] publishes for a session measured as [d] ms
    (from [timer_start_] to [timer_pause_]): none unless [d] exceeds the
    offset and, the offset taken off, the minimum duration. *)
Definition summary_for (d : Z) (timestamp : option Z) : list Event :=
  if (SHOWER_OFFSET_TIME <? d) && (SHOWER_MIN_DURATION <? d - SHOWER_OFFSET_TIME)
  then [SessionSummary ((d - SHOWER_OFFSET_TIME) / 1000) timestamp]
  else [].

End Loop.

Arguments wrap32 : simpl never.
Arguments sub32 : simpl never.
Arguments mul32 : simpl never.
Arguments loop : simpl never.
Arguments coldshot_command : simpl never.

(** ** Vocabulary of the statements *)

(** A run made of polls only. *)
Definition polls (envs : list Env) : list Call := map Loop envs.

(** The same surroundings with another tap reading. *)
Definition with_tap (b : bool) (env : Env) : Env :=
  mkEnv (get_uptime env) b (wall_time env) (get_uptime_alert env)
        (ha_enabled env) (queue_ha_result env).

(** A session in progress with no cold shot under way or asked for:
    started at uptime [t0], paused at [p] (0: not paused), recognised as a
    shower or not ([rec], already published), under the alert settings
    [al] and [tr]. *)
Definition in_session (t0 p : Z) (rec al : bool) (tr : Z) (s : Shower) : Prop :=
  shower_timer_ s = true /\ doing_cold_shot_ s = false /\
  force_coldshot s = false /\
  timer_start_ s = t0 /\ timer_pause_ s = p /\
  shower_state_ s = rec /\ old_shower_state_ s = rec /\
  shower_alert_ s = al /\ shower_alert_trigger_ s = tr.

(** No session, no cold shot under way or asked for, "off" published. *)
Definition idle (s : Shower) : Prop :=
  timer_start_ s = 0 /\ timer_pause_ s = 0 /\
  shower_state_ s = false /\ old_shower_state_ s = false /\
  doing_cold_shot_ s = false /\ force_coldshot s = false.

(** During a cold shot lasting [c] from uptime [a]: a call that does not
    end it (any command, or a poll that sees at most [c] elapsed). *)
Definition within_cold_shot (a c : Z) (cl : Call) : Prop :=
  match cl with
  | Loop env => sub32 (get_uptime env) a <= c
  | Coldshot => True
  end.

(** ** Concrete surroundings used in the examples *)

(** Modelled from the spec: the values the spec gives for the constants of
    the missing header: [MIN_SHOWER_DURATION] 180 s, [PAUSE_TOLERANCE]
    15 s, [OFFSET] 5 s. *)
Definition spec_thresholds : Thresholds.
Proof.
  refine (mkThresholds 180000 15000 5000 _ _ _); unfold UINT32_MAX; lia.
Defined.

(** The surroundings at uptime [t] with tap reading [tap]: no wall clock,
    no Home Assistant; both uptime reads of a poll return [t]. *)
Definition env_at (tap : bool) (t : Z) : Env := mkEnv t tap 0 t false false.

Definition poll_at (tap : bool) (t : Z) : Call := Loop (env_at tap t).

(** [n] polls with the same tap reading, [step] ms apart, from [t]. *)
Fixpoint polls_from (tap : bool) (t step : Z) (n : nat) : list Call :=
  match n with
  | O => []
  | S n' => poll_at tap t :: polls_from tap (t + step) step n'
  end.

(** The object after [start] read the given settings (alert trigger in
    minutes, cold shot in seconds), Home Assistant discovery off. *)
Definition started (alert : bool) (trigger_min coldshot_s : Z) : Shower :=
  state_of (start (mkWebSettings true alert trigger_min coldshot_s)
                  (env_at false 0) initial).

(** Tap on from 1 s to 184 s of uptime, polled every second, then off and
    polled for another 17 s. *)
Definition activity_184s : list Call :=
  polls_from true 1000 1000 184 ++ polls_from false 185000 1000 17.

(** The scenario of the spec: tap on for 200 s, then off for 20 s. *)
Definition shower_200s : list Call :=
  polls_from true 1000 1000 200 ++ polls_from false 201000 1000 21.

(** Tap on for 640 s. *)
Definition shower_640s : list Call := polls_from true 1000 1000 640.

(** Tap on for 200 s, off for 5 s, on again for 195 s, then off. *)
Definition shower_with_gap : list Call :=
  polls_from true 1000 1000 200 ++ polls_from false 201000 1000 5
  ++ polls_from true 206000 1000 195 ++ polls_from false 401000 1000 1.

(** The same 400 s with the tap on throughout, then off for 17 s. *)
Definition shower_without_gap : list Call :=
  polls_from true 1000 1000 400 ++ polls_from false 401000 1000 17.

(** A recognised shower during which the command is given just before the
    tap is closed; 17 s later the session is over; then the tap is opened
    again and polled twice. *)
Definition command_then_tap_closed : list Call :=
  polls_from true 1000 1000 182 ++ [Coldshot]
  ++ polls_from false 183000 1000 17 ++ polls_from true 200000 1000 2.

(** Tap on for 62 s. *)
Definition activity_62s : list Call := polls_from true 1000 1000 62.

(** A shower recognised at 182 s, under an alert after 4 min with a cold
    shot of 10 s. *)
Definition recognised_shower : Shower :=
  state_of (run (K := spec_thresholds)
                [poll_at true 1000; poll_at true 182000] (started true 4 10)).

(** A session started at 1 s and paused at 2 s. *)
Definition paused_session : Shower :=
  state_of (run (K := spec_thresholds)
                [poll_at true 1000; poll_at false 2000] (started false 10 10)).

(** States met just before the uptime counter wraps at 2^32 =
    4294967296 ms, under an alert after 3 min with a cold shot of 10 s:
    a session started, a shower recognised, a session paused, and a cold
    shot started, each 100 s before the wrap. *)
Definition started_before_wrap : Shower :=
  after (K := spec_thresholds) (started true 3 10) [poll_at true 4294867296].

Definition recognised_across_wrap : Shower :=
  after (K := spec_thresholds) (started true 3 10)
        [poll_at true 4294867296; poll_at true 90000].

Definition paused_before_wrap : Shower :=
  after (K := spec_thresholds) (started true 3 10)
        [poll_at true 4294000000; poll_at false 4294867296].

Definition cold_shot_before_wrap : Shower :=
  after (K := spec_thresholds) (started true 3 10)
        [poll_at true 4294000000; poll_at true 4294181000;
         poll_at true 4294867296].

(** ** All entry points of the object *)

Section Entries.

Context {K : Thresholds}.

(** A call from outside: [start] (at boot, or when the settings are read
    again), or one of the calls of a run. *)
Inductive Entry : Type :=
| Start (settings : WebSettings) (env : Env)
| Called (c : Call).

Definition enter (e : Entry) : M unit :=
  match e with
  | Start settings env => start settings env
  | Called c => call c
  end.

Fixpoint enter_all (es : list Entry) : M unit :=
  match es with
  | [] => ret tt
  | e :: es' => enter e ;; enter_all es'
  end.

(** What [finish_shower] lets through as a summary: at least the minimum
    duration in whole seconds, within 32 bits of milliseconds, and a
    timestamp only from a wall clock past 1576800000. *)
Definition summary_in_bounds (ev : Event) : Prop :=
  match ev with
  | SessionSummary d ts =>
      SHOWER_MIN_DURATION / 1000 <= d <= UINT32_MAX / 1000 /\
      (forall t, ts = Some t -> 1576800000 < t)
  | StateChanged _ => True
  end.

End Entries.

(** ** More vocabulary *)

(** The published state is the state, and without a session start there
    is no recognised shower, no pause and no cold shot. *)
Definition consistent (s : Shower) : Prop :=
  old_shower_state_ s = shower_state_ s /\
  (timer_start_ s = 0 ->
   shower_state_ s = false /\ timer_pause_ s = 0 /\ doing_cold_shot_ s = false).

(** Each value is the opposite of the one before it, [b] coming before
    the first. *)
Fixpoint alternating (b : bool) (l : list bool) : Prop :=
  match l with
  | [] => True
  | x :: l' => x = negb b /\ alternating x l'
  end.

(** The [shower_active] values published, in order. *)
Definition state_changes (es : list Effect) : list bool :=
  flat_map (fun e => match e with
                     | Mqtt_publish_shower_active b => [b]
                     | _ => []
                     end) es.

(** The [wwtapactivated] values sent to the boiler, in order. *)
Definition tap_commands (es : list Effect) : list bool :=
  flat_map (fun e => match e with
                     | Command_call_wwtapactivated v => [v]
                     | _ => []
                     end) es.

(** The Home Assistant discovery topics queued, in order. *)
Definition ha_queued (es : list Effect) : list HaTopic :=
  flat_map (fun e => match e with
                     | Mqtt_queue_ha t => [t]
                     | _ => []
                     end) es.

(** The three discovery topics, in the order [set_shower_state] queues
    them. *)
Definition ha_topics : list HaTopic :=
  [shower_active_config; shower_duration_config; shower_timestamp_config].

(** ** The Home Assistant discovery documents of set_shower_state *)

(** What the discovery block reads from [Mqtt] and [System]: the base name
    and base topic, whether the entity format is [MULTI_SHORT], the
    boolean format, and the constant [Mqtt::MQTT_TOPIC_MAX_SIZE] of the
    missing header. *)
Inductive BoolFormat : Type :=
| BOOL_FORMAT_TRUEFALSE
| BOOL_FORMAT_10
| BOOL_FORMAT_other.

Record MqttNames : Type := mkMqttNames {
  basename            : string;
  base                : string;
  entity_multi_short  : bool;
  bool_format         : BoolFormat;
  MQTT_TOPIC_MAX_SIZE : nat
}.

(** The first [n] characters. *)
Fixpoint take (n : nat) (s : string) : string :=
  match n, s with
  | S n', String c s' => String c (take n' s')
  | _, _ => EmptyString
  end.

(** [snprintf(buf, size, ...)] of the expanded format [s]: at most
    [size - 1] characters are kept before the terminator. *)
Definition snprintf (size : nat) (s : string) : string := take (size - 1) s.

(** A value of [pl_on] / [pl_off]: a literal string, a number, or what
    [Helpers::render_boolean] prints for a boolean. *)
Inductive Payload : Type :=
| PString (s : string)
| PNumber (z : Z)
| PRendered (b : bool).

(** One queued discovery document: its topic and the members that
    [set_shower_state] gives it, [None] for a member it does not set.
    [avty_cond] is the last argument of [Mqtt::add_avty_to_doc]. *)
Record HaDoc : Type := mkHaDoc {
  ha_topic     : string;
  ha_name      : string;
  uniq_id      : string;
  object_id    : string;
  stat_t       : string;
  pl_on        : option Payload;
  pl_off       : option Payload;
  val_tpl      : option string;
  unit_of_meas : option string;
  stat_cla     : option string;
  dev_cla      : option string;
  dev_name     : string;
  dev_ids      : list string;
  avty_cond    : option string
}.

Definition ha_doc (m : MqttNames) (t : HaTopic) : HaDoc :=
  match t with
  | shower_active_config =>
      let str := if entity_multi_short m
                 then snprintf 70 (basename m ++ "_shower_active")
                 else snprintf 70 "shower_active" in
      let stat := snprintf 50 (base m ++ "/shower_active") in
      mkHaDoc
        (snprintf (MQTT_TOPIC_MAX_SIZE m)
                  ("binary_sensor/" ++ basename m ++ "/shower_active/config"))
        "Shower Active" str str stat
        (Some match bool_format m with
              | BOOL_FORMAT_TRUEFALSE => PString "true"
              | BOOL_FORMAT_10 => PNumber 1
              | BOOL_FORMAT_other => PRendered true
              end)
        (Some match bool_format m with
              | BOOL_FORMAT_TRUEFALSE => PString "false"
              | BOOL_FORMAT_10 => PNumber 0
              | BOOL_FORMAT_other => PRendered false
              end)
        None None None None
        "EMS-ESP Shower" [basename m ++ "-shower"] None
  | shower_duration_config =>
      let str := snprintf 70 (basename m ++ "_shower_duration") in
      let stat := snprintf 50 (base m ++ "/shower_data") in
      mkHaDoc
        (snprintf (MQTT_TOPIC_MAX_SIZE m)
                  ("sensor/" ++ basename m ++ "/shower_duration/config"))
        "Shower Duration" str str stat None None
        (Some "{{value_json.duration if value_json.duration is defined else 0}}")
        (Some "s") (Some "measurement") (Some "duration")
        "EMS-ESP Shower" [basename m ++ "-shower"]
        (Some "value_json.duration is defined")
  | shower_timestamp_config =>
      let str := snprintf 70 (basename m ++ "_shower_timestamp") in
      let stat := snprintf 50 (base m ++ "/shower_data") in
      mkHaDoc
        (snprintf (MQTT_TOPIC_MAX_SIZE m)
                  ("sensor/" ++ basename m ++ "/shower_timestamp/config"))
        "Shower Timestamp" str str stat None None
        (Some "{{value_json.timestamp if value_json.timestamp is defined else 0}}")
        None None None
        "EMS-ESP Shower" [basename m ++ "-shower"]
        (Some "value_json.timestamp is defined")
  end%string.

(** ** More concrete states *)

(** A shower recognised at 182 s with the alert switched off. *)
Definition recognised_no_alert : Shower :=
  after (K := spec_thresholds) (started false 10 10)
        [poll_at true 1000; poll_at true 182000].

(** The cold shot of [recognised_shower], started by the alert at 250 s. *)
Definition in_cold_shot : Shower :=
  after (K := spec_thresholds) recognised_shower [poll_at true 250000].

(** The object after [start] with Home Assistant enabled and the
    discovery topics queued. *)
Definition started_with_ha : Shower :=
  state_of (start (mkWebSettings true false 10 10)
                  (mkEnv 0 false 0 0 true true) initial).

(** Polls with Home Assistant enabled. *)
Definition ha_poll_at (tap : bool) (t : Z) : Call :=
  Loop (mkEnv t tap 0 t true true).

(** * Properties *)

(** ** Wrap-around arithmetic *)

Lemma wrap32_range z : 0 <= wrap32 z <= UINT32_MAX.
Proof.
  unfold wrap32, UINT32_MAX.
  pose proof (Z.mod_pos_bound z (4294967295 + 1) ltac:(lia)). lia.
Qed.

Lemma sub32_range a b : 0 <= sub32 a b <= UINT32_MAX.
Proof. apply wrap32_range. Qed.

Lemma wrap32_small z : 0 <= z <= UINT32_MAX -> wrap32 z = z.
Proof. unfold wrap32, UINT32_MAX. intros H. apply Z.mod_small. lia. Qed.

Lemma sub32_diag a : sub32 a a = 0.
Proof. unfold sub32. rewrite Z.sub_diag. reflexivity. Qed.

Lemma sub32_wrap32 a b : sub32 (wrap32 a) (wrap32 b) = wrap32 (a - b).
Proof.
  unfold sub32, wrap32.
  rewrite <- Zminus_mod. reflexivity.
Qed.

Lemma sub32_no_borrow a b : 0 <= b <= a -> a <= UINT32_MAX -> sub32 a b = a - b.
Proof. intros Hb Ha. unfold sub32. apply wrap32_small. lia. Qed.

Lemma events_app es1 es2 : events (es1 ++ es2) = events es1 ++ events es2.
Proof. apply flat_map_app. Qed.

(** ** Stepping the monad *)

Lemma run_app {K : Thresholds} (cs1 cs2 : list Call) (s : Shower) :
  run (cs1 ++ cs2) s =
  (tt, state_of (run cs2 (state_of (run cs1 s))),
   output_of (run cs1 s) ++ output_of (run cs2 (state_of (run cs1 s)))).
Proof.
  revert s. induction cs1 as [|c cs1 IH]; intros s.
  - cbn [app run]. unfold ret, state_of, output_of. cbn [fst snd app].
    destruct (run cs2 s) as [[[] s2] e2]. reflexivity.
  - cbn [app run]. unfold bind at 1.
    destruct (call c s) as [[[] s1] e1] eqn:Hc.
    rewrite IH. unfold bind. rewrite Hc.
    destruct (run cs1 s1) as [[[] s2] e2].
    unfold state_of, output_of. cbn [fst snd].
    rewrite app_assoc. reflexivity.
Qed.

Lemma after_app {K : Thresholds} s cs1 cs2 :
  after s (cs1 ++ cs2) = after (after s cs1) cs2.
Proof. unfold after. rewrite run_app. reflexivity. Qed.

Lemma output_app {K : Thresholds} s cs1 cs2 :
  output s (cs1 ++ cs2) = output s cs1 ++ output (after s cs1) cs2.
Proof. unfold output, after. rewrite run_app. reflexivity. Qed.

Lemma after_cons {K : Thresholds} s c cs :
  after s (c :: cs) = after (after s [c]) cs.
Proof. apply (after_app s [c] cs). Qed.

Lemma output_cons {K : Thresholds} s c cs :
  output s (c :: cs) = output s [c] ++ output (after s [c]) cs.
Proof. apply (output_app s [c] cs). Qed.

Lemma after_poll {K : Thresholds} s env :
  after s [Loop env] = state_of (loop env s).
Proof.
  unfold after. cbn [run call]. unfold bind, ret.
  destruct (loop env s) as [[[] s1] e1]. reflexivity.
Qed.

Lemma output_poll {K : Thresholds} s env :
  output s [Loop env] = output_of (loop env s).
Proof.
  unfold output. cbn [run call]. unfold bind, ret.
  destruct (loop env s) as [[[] s1] e1]. cbn. apply app_nil_r.
Qed.

Ltac unfold_calls :=
  cbv [call loop finish_shower set_shower_state shower_alert_start
       shower_alert_stop coldshot_command when bind ret get modify emit].

Ltac open_state s :=
  destruct s as [f_timer f_alert f_trigger f_coldshot f_ha f_state f_start
                 f_pause f_duration f_alert_start f_cold f_force f_old];
  cbn [shower_timer_ shower_alert_ shower_alert_trigger_
       shower_alert_coldshot_ ha_configdone_ shower_state_ timer_start_
       timer_pause_ duration_ alert_timer_start_ doing_cold_shot_
       force_coldshot old_shower_state_] in *;
  subst.

(** Decide one comparison of the goal from the context, or split on it. *)
Ltac settle_ltb :=
  match goal with
  | |- context [?a <? ?b] =>
      first [ replace (a <? b) with true by (symmetry; apply Z.ltb_lt; lia)
            | replace (a <? b) with false by (symmetry; apply Z.ltb_ge; lia) ]
  | |- context [?a =? ?b] =>
      first [ replace (a =? b) with true by (symmetry; apply Z.eqb_eq; lia)
            | replace (a =? b) with false by (symmetry; apply Z.eqb_neq; lia) ]
  end.

Ltac split_cond :=
  match goal with
  | |- context [if ?c then _ else _] =>
      lazymatch c with
      | context [if _ then _ else _] => fail
      | _ => destruct c eqn:?
      end
  end.

Section Facts.

Context {K : Thresholds}.

(** ** Single polls *)

Lemma loop_disabled s env :
  shower_timer_ s = false -> loop env s = (tt, s, []).
Proof. intros H. open_state s. reflexivity. Qed.

(** An idle object polled with the tap off: nothing happens. *)
Lemma loop_idle s env :
  timer_start_ s = 0 -> timer_pause_ s = 0 -> doing_cold_shot_ s = false ->
  tap_water_active env = false ->
  loop env s = (tt, s, []).
Proof.
  intros Hs Hp Hd Ht. open_state s. unfold_calls. rewrite Ht.
  destruct f_timer; reflexivity.
Qed.

(** A poll that takes [timer_start_] from set to unset leaves the object
    idle. *)
Lemma loop_reset s env :
  timer_start_ s <> 0 -> timer_start_ (state_of (loop env s)) = 0 ->
  let s' := state_of (loop env s) in
  timer_pause_ s' = 0 /\ doing_cold_shot_ s' = false /\
  shower_state_ s' = false /\ old_shower_state_ s' = false /\
  alert_timer_start_ s' = 0.
Proof.
  intros Hs H0. open_state s. revert H0. unfold_calls.
  apply Z.eqb_neq in Hs.
  repeat (first [ rewrite Hs | split_cond ]; cbn); intros; try lia; auto 10.
Qed.


(** ** The master switch *)

(** C8: with [shower_timer_] off a poll returns at once: the object is
    unchanged, nothing is sent, and nothing of the surroundings (uptime,
    tap signal) is looked at, the result being the same whatever they are. *)
Theorem loop_disabled_is_noop (s : Shower) (env : Env) :
  shower_timer_ s = false ->
  loop env s = (tt, s, []) /\ forall env', loop env' s = loop env s.
Proof.
  intros H. split.
  - apply loop_disabled, H.
  - intros env'. rewrite !loop_disabled by exact H. reflexivity.
Qed.

(** ** The coldshot command *)

(** C4: the command given while no shower is recognised answers "Coldshot
    failed. Shower not active" and leaves [force_coldshot] false, whatever
    it was; given during a recognised shower it answers "OK" and leaves
    [force_coldshot] true.  Either way it sends nothing (no boiler
    command, no publication) and every other member of the object keeps
    its value. *)
Theorem coldshot_command_gated (s : Shower) :
  let r := coldshot_command s in
  let s' := state_of r in
  (shower_state_ s = false ->
   fst (fst r) = ("Coldshot failed. Shower not active"%string, true) /\
   force_coldshot s' = false) /\
  (shower_state_ s = true ->
   fst (fst r) = ("OK"%string, true) /\
   force_coldshot s' = true) /\
  output_of r = [] /\
  shower_timer_ s' = shower_timer_ s /\
  shower_alert_ s' = shower_alert_ s /\
  shower_alert_trigger_ s' = shower_alert_trigger_ s /\
  shower_alert_coldshot_ s' = shower_alert_coldshot_ s /\
  ha_configdone_ s' = ha_configdone_ s /\
  shower_state_ s' = shower_state_ s /\
  timer_start_ s' = timer_start_ s /\
  timer_pause_ s' = timer_pause_ s /\
  duration_ s' = duration_ s /\
  alert_timer_start_ s' = alert_timer_start_ s /\
  doing_cold_shot_ s' = doing_cold_shot_ s /\
  old_shower_state_ s' = old_shower_state_ s.
Proof.
  open_state s. unfold coldshot_command, bind, get, modify, ret.
  destruct f_state; cbn; repeat split; intros; try discriminate;
    reflexivity.
Qed.

(** ** After the session *)

Lemma polls_idle s envs :
  timer_start_ s = 0 -> timer_pause_ s = 0 -> doing_cold_shot_ s = false ->
  Forall (fun env => tap_water_active env = false) envs ->
  run (polls envs) s = (tt, s, []).
Proof.
  intros Hs Hp Hd Hoff. induction Hoff as [|env envs Ht _ IH].
  - reflexivity.
  - cbn [polls map run call]. unfold bind.
    rewrite (loop_idle s env Hs Hp Hd Ht).
    unfold polls in IH. rewrite IH. reflexivity.
Qed.

(** C7: once a poll has closed the session (it found [timer_start_] set
    and left it unset), every further poll with the tap off sends nothing
    and leaves the object as it is. *)
Theorem closed_session_polls_idempotent (s : Shower) (env : Env)
        (offs : list Env) :
  timer_start_ s <> 0 ->
  timer_start_ (after s [Loop env]) = 0 ->
  Forall (fun e => tap_water_active e = false) offs ->
  run (polls offs) (after s [Loop env]) = (tt, after s [Loop env], []).
Proof.
  intros Hs H0 Hoff. rewrite after_poll in *.
  destruct (loop_reset s env Hs H0) as (Hp & Hd & _).
  apply polls_idle; assumption.
Qed.


(** ** The cold shot *)

(** A poll that turns [doing_cold_shot_] on went through
    [shower_alert_start]. *)
Lemma loop_triggers s env :
  doing_cold_shot_ s = false ->
  doing_cold_shot_ (state_of (loop env s)) = true ->
  shower_timer_ s = true /\
  loop env s =
  (tt,
   set_alert_timer_start_ (get_uptime_alert env)
     (set_force_coldshot false (set_doing_cold_shot_ true s)),
   [Command_call_wwtapactivated false]).
Proof.
  intros Hd H1. open_state s. revert H1. unfold_calls.
  destruct f_timer; cbn; [|discriminate].
  repeat (split_cond; cbn); intros; try discriminate; split; reflexivity.
Qed.

Lemma call_within_cold_shot s c :
  shower_timer_ s = true -> doing_cold_shot_ s = true ->
  within_cold_shot (alert_timer_start_ s) (shower_alert_coldshot_ s) c ->
  exists f, call c s = (tt, set_force_coldshot f s, []).
Proof.
  intros Ht Hd Hw. open_state s. destruct c as [env|]; cbn in Hw.
  - exists f_force. unfold_calls. cbn. settle_ltb. reflexivity.
  - unfold_calls. cbn. destruct f_state; eexists; reflexivity.
Qed.

Lemma run_within_cold_shot cs : forall s,
  shower_timer_ s = true -> doing_cold_shot_ s = true ->
  Forall (within_cold_shot (alert_timer_start_ s) (shower_alert_coldshot_ s)) cs ->
  exists f, run cs s = (tt, set_force_coldshot f s, []).
Proof.
  induction cs as [|c cs IH]; intros s Ht Hd Hw.
  - exists (force_coldshot s). open_state s. reflexivity.
  - inversion Hw as [|? ? Hc Hcs]; subst.
    destruct (call_within_cold_shot s c Ht Hd Hc) as [f Hf].
    destruct (IH (set_force_coldshot f s)) as [f' Hf']; try assumption.
    exists f'. cbn [run]. unfold bind. rewrite Hf, Hf'.
    open_state s. reflexivity.
Qed.

Lemma loop_cold_stop s env :
  shower_timer_ s = true -> doing_cold_shot_ s = true ->
  shower_alert_coldshot_ s < sub32 (get_uptime env) (alert_timer_start_ s) ->
  loop env s =
  (tt, set_force_coldshot false (set_doing_cold_shot_ false s),
   [Command_call_wwtapactivated true]).
Proof.
  intros Ht Hd Hlt. open_state s. unfold_calls. cbn. settle_ltb. reflexivity.
Qed.

Lemma loop_cold_ignores_tap s env b :
  doing_cold_shot_ s = true -> loop (with_tap b env) s = loop env s.
Proof. intros Hd. open_state s. reflexivity. Qed.


(** C5: a cold shot, from the poll [e0] that starts it up to the first poll
    [e1] that sees more than [shower_alert_coldshot_] elapsed since its
    start.  The boiler gets one "wwtapactivated false" at [e0], nothing
    while the cold shot lasts (whatever is polled or commanded in between),
    and one "wwtapactivated true" at [e1]; nothing else is sent.  While the
    cold shot lasts a poll does not depend on the tap reading. *)
Theorem cold_shot_cycle (s0 : Shower) (e0 e1 : Env) (during : list Call) :
  doing_cold_shot_ s0 = false ->
  doing_cold_shot_ (after s0 [Loop e0]) = true ->
  Forall (within_cold_shot (get_uptime_alert e0) (shower_alert_coldshot_ s0))
         during ->
  shower_alert_coldshot_ s0 < sub32 (get_uptime e1) (get_uptime_alert e0) ->
  output s0 (Loop e0 :: during) = [Command_call_wwtapactivated false] /\
  doing_cold_shot_ (after s0 (Loop e0 :: during)) = true /\
  output s0 (Loop e0 :: during ++ [Loop e1]) =
    [Command_call_wwtapactivated false; Command_call_wwtapactivated true] /\
  doing_cold_shot_ (after s0 (Loop e0 :: during ++ [Loop e1])) = false /\
  (forall s env b,
      doing_cold_shot_ s = true -> loop (with_tap b env) s = loop env s).
Proof.
  intros Hd0 Hd1 Hduring Hend.
  rewrite after_poll in Hd1.
  destruct (loop_triggers s0 e0 Hd0 Hd1) as [Ht Hstart].
  set (s1 := set_alert_timer_start_ (get_uptime_alert e0)
               (set_force_coldshot false (set_doing_cold_shot_ true s0))) in *.
  assert (Ha1 : after s0 [Loop e0] = s1) by (rewrite after_poll, Hstart; reflexivity).
  assert (Ho1 : output s0 [Loop e0] = [Command_call_wwtapactivated false])
    by (rewrite output_poll, Hstart; reflexivity).
  assert (Ht1 : shower_timer_ s1 = true) by (open_state s0; reflexivity).
  assert (Hc1 : doing_cold_shot_ s1 = true) by (open_state s0; reflexivity).
  assert (Hw1 : Forall (within_cold_shot (alert_timer_start_ s1)
                          (shower_alert_coldshot_ s1)) during)
    by (open_state s0; exact Hduring).
  destruct (run_within_cold_shot during s1 Ht1 Hc1 Hw1) as [f Hrun].
  set (s2 := set_force_coldshot f s1) in *.
  assert (Ha2 : after s1 during = s2) by (unfold after; rewrite Hrun; reflexivity).
  assert (Ho2 : output s1 during = []) by (unfold output; rewrite Hrun; reflexivity).
  assert (Hstop : loop e1 s2 =
                  (tt, set_force_coldshot false (set_doing_cold_shot_ false s2),
                   [Command_call_wwtapactivated true])).
  { apply loop_cold_stop; subst s2 s1; open_state s0; auto. }
  repeat split.
  - rewrite output_cons, Ho1, Ha1, Ho2. reflexivity.
  - rewrite after_cons, Ha1, Ha2. subst s2 s1. open_state s0. reflexivity.
  - rewrite output_cons, Ho1, Ha1, output_app, Ho2, Ha2, output_poll, Hstop.
    reflexivity.
  - rewrite after_cons, Ha1, after_app, Ha2, after_poll, Hstop.
    subst s2 s1. open_state s0. reflexivity.
  - intros s env b Hd. apply loop_cold_ignores_tap, Hd.
Qed.

(** C10: a cold shot started by the alert (at poll [e0], more than
    [shower_alert_trigger_] after [timer_start_]) and ended at poll [e1]
    leaves the shower recognised and [timer_start_] in place; at any later
    poll [e2] the time since [timer_start_] is still above the trigger, so
    with the tap on that poll starts the next cold shot at once. *)
Theorem cold_shot_repeats (s0 : Shower) (e0 e1 e2 : Env) (during : list Call) :
  shower_timer_ s0 = true ->
  shower_state_ s0 = true ->
  doing_cold_shot_ s0 = false ->
  timer_start_ s0 <> 0 ->
  shower_alert_ s0 = true ->
  tap_water_active e0 = true ->
  shower_alert_trigger_ s0 < sub32 (get_uptime e0) (timer_start_ s0) ->
  Forall (within_cold_shot (get_uptime_alert e0) (shower_alert_coldshot_ s0))
         during ->
  shower_alert_coldshot_ s0 < sub32 (get_uptime e1) (get_uptime_alert e0) ->
  tap_water_active e2 = true ->
  sub32 (get_uptime e0) (timer_start_ s0)
  <= sub32 (get_uptime e2) (timer_start_ s0) ->
  let s2 := after s0 (Loop e0 :: during ++ [Loop e1]) in
  doing_cold_shot_ s2 = false /\
  shower_state_ s2 = true /\
  shower_alert_trigger_ s2 < sub32 (get_uptime e2) (timer_start_ s2) /\
  output s2 [Loop e2] = [Command_call_wwtapactivated false] /\
  doing_cold_shot_ (after s2 [Loop e2]) = true.
Proof.
  intros Ht Hrec Hd0 Hstart Hal Htap0 Htrig Hduring Hend Htap2 Hmono s2.
  assert (Hfire : loop e0 s0 =
                  (tt, set_alert_timer_start_ (get_uptime_alert e0)
                         (set_force_coldshot false (set_doing_cold_shot_ true s0)),
                   [Command_call_wwtapactivated false])).
  { open_state s0. unfold_calls. cbn. rewrite Htap0.
    repeat settle_ltb. reflexivity. }
  set (s1 := set_alert_timer_start_ (get_uptime_alert e0)
               (set_force_coldshot false (set_doing_cold_shot_ true s0))) in *.
  assert (Ha1 : after s0 [Loop e0] = s1) by (rewrite after_poll, Hfire; reflexivity).
  assert (Ht1 : shower_timer_ s1 = true) by (open_state s0; reflexivity).
  assert (Hc1 : doing_cold_shot_ s1 = true) by (open_state s0; reflexivity).
  assert (Hw1 : Forall (within_cold_shot (alert_timer_start_ s1)
                          (shower_alert_coldshot_ s1)) during)
    by (open_state s0; exact Hduring).
  destruct (run_within_cold_shot during s1 Ht1 Hc1 Hw1) as [f Hrun].
  assert (Ha2 : after s1 during = set_force_coldshot f s1)
    by (unfold after; rewrite Hrun; reflexivity).
  assert (Hs2 : s2 = set_force_coldshot false
                       (set_doing_cold_shot_ false (set_force_coldshot f s1))).
  { subst s2. rewrite after_cons, Ha1, after_app, Ha2, after_poll.
    rewrite loop_cold_stop; [reflexivity | | |]; subst s1; open_state s0; auto. }
  assert (Hnext : loop e2 s2 =
                  (tt, set_alert_timer_start_ (get_uptime_alert e2)
                         (set_force_coldshot false (set_doing_cold_shot_ true s2)),
                   [Command_call_wwtapactivated false])).
  { rewrite Hs2. subst s1. open_state s0. unfold_calls. cbn. rewrite Htap2.
    repeat settle_ltb. reflexivity. }
  rewrite after_poll, output_poll, Hnext.
  rewrite Hs2. subst s1. open_state s0. cbn. repeat split; try reflexivity. lia.
Qed.


(** ** Elapsed time *)

(** C9: the four elapsed-time tests of [loop] subtract two [uint32_t]
    uptimes.  For true times [T0] and [T] (in ms, of any size) read through
    the 32-bit counter, the difference is the true elapsed time modulo
    2^32, and is the true elapsed time itself whenever that fits the
    counter, whether or not the counter wrapped in between.  So each test
    decides on the true elapsed time: recognising the shower, firing the
    alert, closing the session after the pause, ending the cold shot. *)
Theorem elapsed_time_wraparound_safe (T0 T : Z) :
  sub32 (wrap32 T) (wrap32 T0) = wrap32 (T - T0) /\
  (0 <= T - T0 <= UINT32_MAX ->
   sub32 (wrap32 T) (wrap32 T0) = T - T0 /\
   (forall s env,
       shower_timer_ s = true -> doing_cold_shot_ s = false ->
       tap_water_active env = true -> get_uptime env = wrap32 T ->
       timer_start_ s = wrap32 T0 -> wrap32 T0 <> 0 ->
       shower_state_ s = false ->
       shower_state_ (state_of (loop env s)) = (SHOWER_MIN_DURATION <? T - T0)) /\
   (forall s env,
       shower_timer_ s = true -> doing_cold_shot_ s = false ->
       tap_water_active env = true -> get_uptime env = wrap32 T ->
       timer_start_ s = wrap32 T0 -> wrap32 T0 <> 0 ->
       shower_state_ s = true -> shower_alert_ s = true ->
       force_coldshot s = false ->
       doing_cold_shot_ (state_of (loop env s))
       = (shower_alert_trigger_ s <? T - T0)) /\
   (forall s env,
       shower_timer_ s = true -> doing_cold_shot_ s = false ->
       tap_water_active env = false -> get_uptime env = wrap32 T ->
       timer_pause_ s = wrap32 T0 -> wrap32 T0 <> 0 ->
       timer_pause_ (state_of (loop env s))
       = if SHOWER_PAUSE_TIME <? T - T0 then 0 else wrap32 T0) /\
   (forall s env,
       shower_timer_ s = true -> doing_cold_shot_ s = true ->
       get_uptime env = wrap32 T -> alert_timer_start_ s = wrap32 T0 ->
       doing_cold_shot_ (state_of (loop env s))
       = negb (shower_alert_coldshot_ s <? T - T0))).
Proof.
  split; [apply sub32_wrap32|]. intros Hfit.
  assert (Hsub : sub32 (wrap32 T) (wrap32 T0) = T - T0)
    by (rewrite sub32_wrap32; apply wrap32_small, Hfit).
  split; [exact Hsub|]. repeat split.
  - intros s env Ht Hd Htap Hnow Hst Hnz Hrec. open_state s.
    unfold_calls. cbn. rewrite Htap, Hnow, Hsub.
    apply Z.eqb_neq in Hnz. rewrite Hnz.
    destruct (SHOWER_MIN_DURATION <? T - T0); cbn;
      repeat (split_cond; cbn); reflexivity.
  - intros s env Ht Hd Htap Hnow Hst Hnz Hrec Hal Hf. open_state s.
    unfold_calls. cbn. rewrite Htap, Hnow, Hsub.
    apply Z.eqb_neq in Hnz. rewrite Hnz.
    destruct (f_trigger <? T - T0); reflexivity.
  - intros s env Ht Hd Htap Hnow Hp Hnz. open_state s.
    unfold_calls. cbn. rewrite Htap, Hnow.
    apply Z.eqb_neq in Hnz. rewrite Hnz, andb_false_r. cbn.
    rewrite Hnz, Hsub. cbn.
    destruct (SHOWER_PAUSE_TIME <? T - T0); cbn; [|reflexivity].
    repeat (split_cond; cbn); reflexivity.
  - intros s env Ht Hd Hnow Ha. open_state s.
    unfold_calls. cbn. rewrite Hnow, Hsub.
    destruct (f_coldshot <? T - T0); reflexivity.
Qed.


(** ** Below the minimum duration *)

(** An unrecognised session polled with the tap on, less than the minimum
    after its start (or not started): still unrecognised, nothing
    published; [timer_start_] stays or becomes the uptime of this poll. *)
Lemma loop_tap_below_min s env :
  shower_state_ s = false -> old_shower_state_ s = false ->
  tap_water_active env = true ->
  timer_start_ s = 0 \/
  sub32 (get_uptime env) (timer_start_ s) < SHOWER_MIN_DURATION ->
  let r := loop env s in
  shower_state_ (state_of r) = false /\
  old_shower_state_ (state_of r) = false /\
  (timer_start_ (state_of r) = timer_start_ s \/
   timer_start_ (state_of r) = get_uptime env) /\
  events (output_of r) = [].
Proof.
  intros Hrec Hold Htap Hlt. open_state s. unfold_calls. rewrite Htap.
  destruct f_timer, f_cold; cbn; auto.
  - split_cond; cbn; auto.
  - destruct (f_start =? 0) eqn:Hz; cbn; auto.
    apply Z.eqb_neq in Hz.
    destruct Hlt as [Hlt|Hlt]; [contradiction|].
    settle_ltb. cbn. split_cond; cbn; auto.
Qed.

(** An unrecognised session polled with the tap off. *)
Lemma loop_off_unrecognised s env :
  shower_state_ s = false -> old_shower_state_ s = false ->
  tap_water_active env = false ->
  let r := loop env s in
  shower_state_ (state_of r) = false /\
  old_shower_state_ (state_of r) = false /\
  ~ In (StateChanged true) (events (output_of r)).
Proof.
  intros Hrec Hold Htap. open_state s. unfold_calls. rewrite Htap.
  destruct f_timer, f_cold; cbn; auto.
  - split_cond; cbn; auto.
  - repeat (split_cond; cbn); repeat split; auto; cbn; intros H;
      repeat (destruct H as [H|H]; try discriminate H); auto.
Qed.

Lemma polls_off_unrecognised offs : forall s,
  shower_state_ s = false -> old_shower_state_ s = false ->
  Forall (fun e => tap_water_active e = false) offs ->
  ~ In (StateChanged true) (events (output s (polls offs))).
Proof.
  induction offs as [|e offs IH]; intros s Hrec Hold Hoff.
  - cbn. auto.
  - inversion Hoff as [|? ? He Hoffs]; subst.
    destruct (loop_off_unrecognised s e Hrec Hold He) as (Hrec' & Hold' & Hno).
    cbn [polls map]. rewrite output_cons, events_app, output_poll, after_poll.
    intros Hin. apply in_app_or in Hin. destruct Hin as [Hin|Hin].
    + exact (Hno Hin).
    + exact (IH _ Hrec' Hold' Hoffs Hin).
Qed.

Lemma polls_tap_below_min ons : forall s,
  shower_state_ s = false -> old_shower_state_ s = false ->
  Forall (fun e => tap_water_active e = true) ons ->
  timer_start_ s = 0 \/
  Forall (fun e => sub32 (get_uptime e) (timer_start_ s) < SHOWER_MIN_DURATION)
         ons ->
  ForallOrdPairs
    (fun e e' => sub32 (get_uptime e') (get_uptime e) < SHOWER_MIN_DURATION)
    ons ->
  shower_state_ (after s (polls ons)) = false /\
  old_shower_state_ (after s (polls ons)) = false /\
  events (output s (polls ons)) = [].
Proof.
  induction ons as [|e ons IH]; intros s Hrec Hold Hon Hfirst Hpairs.
  - cbn. auto.
  - inversion Hon as [|? ? He Hons]; subst.
    inversion Hpairs as [|? ? Hhead Htail]; subst.
    assert (Hnow : timer_start_ s = 0 \/
                   sub32 (get_uptime e) (timer_start_ s) < SHOWER_MIN_DURATION).
    { destruct Hfirst as [H0|Hall]; [left; exact H0|right].
      inversion Hall; assumption. }
    destruct (loop_tap_below_min s e Hrec Hold He Hnow)
      as (Hrec' & Hold' & Hstart' & Hnone).
    cbn [polls map].
    rewrite after_cons, output_cons, events_app, output_poll, after_poll, Hnone.
    apply IH; try assumption.
    destruct Hstart' as [Hsame|Hnew].
    + destruct Hfirst as [H0|Hall].
      * left. rewrite Hsame. exact H0.
      * right. rewrite Hsame. inversion Hall; assumption.
    + right. rewrite Hnew. exact Hhead.
Qed.

(** C6: tap activity shorter than the minimum duration is never published
    as a shower.  From an object with no session and "off" published, let
    the tap be on during the polls [ons], any two of them less than
    [SHOWER_MIN_DURATION] apart (later uptime minus earlier one, as the
    code subtracts), and off during the polls [offs] that follow: no
    [shower_active] publication of "on" is sent. *)
Theorem short_activity_never_recognised (s : Shower) (ons offs : list Env) :
  timer_start_ s = 0 ->
  shower_state_ s = false ->
  old_shower_state_ s = false ->
  Forall (fun e => tap_water_active e = true) ons ->
  ForallOrdPairs
    (fun e e' => sub32 (get_uptime e') (get_uptime e) < SHOWER_MIN_DURATION)
    ons ->
  Forall (fun e => tap_water_active e = false) offs ->
  ~ In (StateChanged true) (events (output s (polls (ons ++ offs)))).
Proof.
  intros Hs Hrec Hold Hon Hpairs Hoff.
  destruct (polls_tap_below_min ons s Hrec Hold Hon (or_introl Hs) Hpairs)
    as (Hrec' & Hold' & Hnone).
  unfold polls in *. rewrite map_app, output_app, events_app, Hnone.
  cbn [app]. apply polls_off_unrecognised; assumption.
Qed.


(** ** A whole session *)

Ltac open_session H :=
  destruct H as (? & ? & ? & ? & ? & ? & ? & ? & ?).

(** The first poll with the tap on starts the session. *)
Lemma loop_tap_begin s env :
  shower_timer_ s = true -> idle s -> tap_water_active env = true ->
  output_of (loop env s) = [] /\
  in_session (get_uptime env) 0 false (shower_alert_ s)
             (shower_alert_trigger_ s) (state_of (loop env s)).
Proof.
  intros Ht (Hs & Hp & Hrec & Hold & Hd & Hf) Htap. open_state s.
  unfold_calls. rewrite Htap. cbn. unfold in_session. cbn. auto 12.
Qed.

(** A poll with the tap on that neither recognises the shower nor fires
    the alert. *)
Lemma loop_tap_quiet t0 p rec al tr s env :
  in_session t0 p rec al tr s -> t0 <> 0 ->
  tap_water_active env = true ->
  rec = true \/ sub32 (get_uptime env) t0 <= SHOWER_MIN_DURATION ->
  (al = true -> sub32 (get_uptime env) t0 <= tr) ->
  loop env s = (tt, s, []).
Proof.
  intros Hin Ht0 Htap Hmin Htr. open_session Hin. open_state s.
  unfold_calls. rewrite Htap. cbn. settle_ltb.
  destruct rec; cbn.
  - destruct al; cbn; [specialize (Htr eq_refl); settle_ltb|]; reflexivity.
  - destruct Hmin as [Hmin|Hmin]; [discriminate|]. settle_ltb. cbn.
    destruct al; cbn; [specialize (Htr eq_refl); settle_ltb|]; reflexivity.
Qed.

(** The poll that recognises the shower publishes "on", once. *)
Lemma loop_tap_recognise t0 p al tr s env :
  in_session t0 p false al tr s -> t0 <> 0 ->
  tap_water_active env = true ->
  SHOWER_MIN_DURATION < sub32 (get_uptime env) t0 ->
  in_session t0 p true al tr (state_of (loop env s)) /\
  events (output_of (loop env s)) = [StateChanged true].
Proof.
  intros Hin Ht0 Htap Hmin. open_session Hin. open_state s.
  unfold_calls. rewrite Htap. cbn. repeat settle_ltb. cbn.
  unfold in_session. split_cond; cbn; auto 12.
Qed.

Lemma polls_tap_recognised t0 p al tr ons : forall s,
  in_session t0 p true al tr s -> t0 <> 0 ->
  Forall (fun e => tap_water_active e = true) ons ->
  (al = true -> Forall (fun e => sub32 (get_uptime e) t0 <= tr) ons) ->
  run (polls ons) s = (tt, s, []).
Proof.
  induction ons as [|e ons IH]; intros s Hin Ht0 Hon Htr.
  - reflexivity.
  - inversion Hon as [|? ? He Hons]; subst.
    cbn [polls map run call]. unfold bind.
    rewrite (loop_tap_quiet t0 p true al tr s e Hin Ht0 He (or_introl eq_refl)).
    + unfold polls in IH. rewrite IH; auto.
      intros Hal. specialize (Htr Hal). inversion Htr; assumption.
    + intros Hal. specialize (Htr Hal). inversion Htr; assumption.
Qed.

Lemma polls_tap_session t0 p al tr ons : forall s,
  in_session t0 p false al tr s -> t0 <> 0 ->
  Forall (fun e => tap_water_active e = true) ons ->
  Exists (fun e => SHOWER_MIN_DURATION < sub32 (get_uptime e) t0) ons ->
  (al = true -> Forall (fun e => sub32 (get_uptime e) t0 <= tr) ons) ->
  in_session t0 p true al tr (after s (polls ons)) /\
  events (output s (polls ons)) = [StateChanged true].
Proof.
  induction ons as [|e ons IH]; intros s Hin Ht0 Hon Hex Htr.
  - inversion Hex.
  - inversion Hon as [|? ? He Hons]; subst.
    assert (Htr' : al = true -> Forall (fun e => sub32 (get_uptime e) t0 <= tr) ons)
      by (intros Hal; specialize (Htr Hal); inversion Htr; assumption).
    change (polls (e :: ons)) with (Loop e :: polls ons).
    rewrite after_cons, output_cons, events_app, after_poll, output_poll.
    destruct (Z.lt_ge_cases SHOWER_MIN_DURATION (sub32 (get_uptime e) t0))
      as [Hlt|Hge].
    + destruct (loop_tap_recognise t0 p al tr s e Hin Ht0 He Hlt) as [Hin' Hev].
      rewrite Hev. unfold after, output.
      rewrite (polls_tap_recognised t0 p al tr ons _ Hin' Ht0 Hons Htr').
      cbn. auto.
    + rewrite (loop_tap_quiet t0 p false al tr s e Hin Ht0 He (or_intror Hge)).
      * cbn. apply IH; auto.
        inversion Hex as [? ? Hhd|? ? Htl]; subst; [lia|assumption].
      * intros Hal. specialize (Htr Hal). inversion Htr; assumption.
Qed.

(** The first poll with the tap off records the pause. *)
Lemma loop_off_pause t0 rec al tr s env :
  in_session t0 0 rec al tr s -> t0 <> 0 ->
  tap_water_active env = false -> get_uptime env <> 0 ->
  output_of (loop env s) = [] /\
  in_session t0 (get_uptime env) rec al tr (state_of (loop env s)).
Proof.
  intros Hin Ht0 Htap Hnow. open_session Hin. open_state s.
  pose proof SHOWER_PAUSE_TIME_u32.
  unfold_calls. rewrite Htap. cbn. repeat settle_ltb. cbn.
  rewrite sub32_diag. repeat settle_ltb. cbn.
  unfold in_session. cbn. auto 12.
Qed.

(** A poll inside the pause tolerance. *)
Lemma loop_off_wait t0 p rec al tr s env :
  in_session t0 p rec al tr s -> p <> 0 ->
  tap_water_active env = false ->
  sub32 (get_uptime env) p <= SHOWER_PAUSE_TIME ->
  loop env s = (tt, s, []).
Proof.
  intros Hin Hp Htap Hle. open_session Hin. open_state s.
  unfold_calls. rewrite Htap. cbn. repeat settle_ltb.
  rewrite andb_false_r. cbn. repeat settle_ltb. reflexivity.
Qed.

(** The poll past the pause tolerance closes a recognised session. *)
Lemma loop_off_finish t0 p al tr s env :
  in_session t0 p true al tr s -> p <> 0 ->
  tap_water_active env = false ->
  SHOWER_PAUSE_TIME < sub32 (get_uptime env) p ->
  let s' := state_of (loop env s) in
  (timer_start_ s' = 0 /\ timer_pause_ s' = 0 /\ doing_cold_shot_ s' = false) /\
  exists ts,
    events (output_of (loop env s)) =
    summary_for (sub32 p t0) ts ++ [StateChanged false].
Proof.
  intros Hin Hp Htap Hlt. open_session Hin. open_state s.
  pose proof SHOWER_OFFSET_TIME_u32 as Hoff.
  pose proof (sub32_range p t0) as Hd.
  cbv zeta. unfold_calls. rewrite Htap. cbn. repeat settle_ltb.
  rewrite andb_false_r. cbn. repeat settle_ltb. cbn.
  unfold summary_for.
  destruct (SHOWER_OFFSET_TIME <? sub32 p t0) eqn:Hgt; cbn.
  - apply Z.ltb_lt in Hgt.
    rewrite (sub32_no_borrow (sub32 p t0) SHOWER_OFFSET_TIME) by lia.
    destruct (SHOWER_MIN_DURATION <? sub32 p t0 - SHOWER_OFFSET_TIME); cbn;
      repeat (split_cond; cbn); (split; [auto|]);
      first [exists None; reflexivity | eexists; reflexivity].
  - repeat (split_cond; cbn); (split; [auto|]); exists None; reflexivity.
Qed.


Lemma polls_off_session t0 p al tr offs : forall s,
  in_session t0 p true al tr s -> p <> 0 ->
  Forall (fun e => tap_water_active e = false) offs ->
  Exists (fun e => SHOWER_PAUSE_TIME < sub32 (get_uptime e) p) offs ->
  timer_start_ (after s (polls offs)) = 0 /\
  exists ts,
    events (output s (polls offs)) =
    summary_for (sub32 p t0) ts ++ [StateChanged false].
Proof.
  induction offs as [|e offs IH]; intros s Hin Hp Hoff Hex.
  - inversion Hex.
  - inversion Hoff as [|? ? He Hoffs]; subst.
    change (polls (e :: offs)) with (Loop e :: polls offs).
    rewrite after_cons, output_cons, events_app, after_poll, output_poll.
    destruct (Z.lt_ge_cases SHOWER_PAUSE_TIME (sub32 (get_uptime e) p))
      as [Hlt|Hge].
    + destruct (loop_off_finish t0 p al tr s e Hin Hp He Hlt)
        as ((Hs' & Hp' & Hd') & ts & Hev).
      rewrite Hev. unfold after, output.
      rewrite (polls_idle _ offs Hs' Hp' Hd' Hoffs). cbn [state_of output_of fst snd events flat_map].
      split; [exact Hs'|]. exists ts. rewrite app_nil_r. reflexivity.
    + rewrite (loop_off_wait t0 p true al tr s e Hin Hp He Hge). cbn.
      apply IH; auto.
      inversion Hex as [? ? Hhd|? ? Htl]; subst; [lia|assumption].
Qed.

(** C1, as the code has it.  From an idle object, let the tap be on during
    the polls [e0 :: ons], one of which comes more than
    [SHOWER_MIN_DURATION] after [e0], none beyond the alert trigger if the
    alert is on; then off during the polls [o0 :: offs], one of which comes
    more than [SHOWER_PAUSE_TIME] after [o0].  With [d] the time from [e0]
    to [o0], the run publishes "on", then the summary if [d] exceeds the
    offset and [d - SHOWER_OFFSET_TIME] exceeds the minimum duration
    (duration [(d - SHOWER_OFFSET_TIME) / 1000] seconds), then "off", and
    nothing else; with [d - SHOWER_OFFSET_TIME] at or below the minimum
    there is no summary. *)
Theorem session_summary_beyond_offset
        (s : Shower) (e0 : Env) (ons : list Env) (o0 : Env) (offs : list Env) :
  shower_timer_ s = true ->
  idle s ->
  tap_water_active e0 = true -> get_uptime e0 <> 0 ->
  Forall (fun e => tap_water_active e = true) ons ->
  Exists (fun e => SHOWER_MIN_DURATION < sub32 (get_uptime e) (get_uptime e0))
         ons ->
  (shower_alert_ s = true ->
   Forall (fun e => sub32 (get_uptime e) (get_uptime e0)
                    <= shower_alert_trigger_ s) ons) ->
  tap_water_active o0 = false -> get_uptime o0 <> 0 ->
  Forall (fun e => tap_water_active e = false) offs ->
  Exists (fun e => SHOWER_PAUSE_TIME < sub32 (get_uptime e) (get_uptime o0))
         offs ->
  let d := sub32 (get_uptime o0) (get_uptime e0) in
  exists ts,
    events (output s (polls (e0 :: ons ++ o0 :: offs))) =
    [StateChanged true] ++ summary_for d ts ++ [StateChanged false].
Proof.
  intros Ht Hidle Htap0 Hnz0 Hon Hrec Hquiet Htapo Hnzo Hoff Hend d.
  destruct (loop_tap_begin s e0 Ht Hidle Htap0) as [Hout0 Hin0].
  destruct (polls_tap_session _ _ _ _ ons _ Hin0 Hnz0 Hon Hrec Hquiet)
    as [Hin1 Hev1].
  set (s1 := after (state_of (loop e0 s)) (polls ons)) in *.
  destruct (loop_off_pause _ _ _ _ s1 o0 Hin1 Hnz0 Htapo Hnzo) as [Hout2 Hin2].
  destruct (polls_off_session _ _ _ _ offs _ Hin2 Hnzo Hoff Hend)
    as [_ [ts Hev3]].
  exists ts.
  change (polls (e0 :: ons ++ o0 :: offs))
    with (Loop e0 :: polls (ons ++ o0 :: offs)).
  unfold polls at 1. rewrite map_app. cbn [map]. fold (polls ons) (polls offs).
  rewrite output_cons, output_poll, Hout0, after_poll. cbn [app].
  rewrite output_app, events_app, Hev1. fold s1.
  rewrite output_cons, events_app, output_poll, Hout2, after_poll, Hev3.
  reflexivity.
Qed.

(** ** A pause inside the session *)

Lemma polls_off_wait t0 p rec al tr gap : forall s,
  in_session t0 p rec al tr s -> p <> 0 ->
  Forall (fun e => tap_water_active e = false
                   /\ sub32 (get_uptime e) p <= SHOWER_PAUSE_TIME) gap ->
  run (polls gap) s = (tt, s, []).
Proof.
  induction gap as [|e gap IH]; intros s Hin Hp Hgap.
  - reflexivity.
  - inversion Hgap as [|? ? [He Hle] Hrest]; subst.
    change (polls (e :: gap)) with (Loop e :: polls gap).
    cbn [run call]. unfold bind.
    rewrite (loop_off_wait t0 p rec al tr s e Hin Hp He Hle).
    rewrite (IH s Hin Hp Hrest). reflexivity.
Qed.

(** What the code does with a short gap (C3 is about it).  In a recognised
    shower the tap goes off at [o0], stays off within the tolerance during
    [gap], comes back on during [ons], and goes off again at [o1], more
    than [SHOWER_PAUSE_TIME] after [o0].  The gap does not close the
    session, but [o1] closes it at once, and the summary is the one of a
    session that ended at [o0]: [timer_pause_] is still the uptime of [o0]. *)
Lemma gap_closes_at_first_pause t0 al tr s o0 gap ons o1 :
  in_session t0 0 true al tr s -> t0 <> 0 ->
  tap_water_active o0 = false -> get_uptime o0 <> 0 ->
  Forall (fun e => tap_water_active e = false
                   /\ sub32 (get_uptime e) (get_uptime o0) <= SHOWER_PAUSE_TIME)
         gap ->
  Forall (fun e => tap_water_active e = true) ons ->
  (al = true -> Forall (fun e => sub32 (get_uptime e) t0 <= tr) ons) ->
  tap_water_active o1 = false ->
  SHOWER_PAUSE_TIME < sub32 (get_uptime o1) (get_uptime o0) ->
  output s (polls (o0 :: gap ++ ons)) = [] /\
  timer_start_ (after s (polls (o0 :: gap ++ ons))) = t0 /\
  timer_pause_ (after s (polls (o0 :: gap ++ ons))) = get_uptime o0 /\
  exists ts,
    events (output s (polls ((o0 :: gap ++ ons) ++ [o1]))) =
    summary_for (sub32 (get_uptime o0) t0) ts ++ [StateChanged false].
Proof.
  intros Hin Ht0 Htapo Hnzo Hgap Hon Hquiet Htap1 Hlate.
  destruct (loop_off_pause _ _ _ _ s o0 Hin Ht0 Htapo Hnzo) as [Hout1 Hin1].
  set (s1 := state_of (loop o0 s)) in *.
  pose proof (polls_off_wait _ _ _ _ _ gap s1 Hin1 Hnzo Hgap) as Hrun2.
  pose proof (polls_tap_recognised _ _ _ _ ons s1 Hin1 Ht0 Hon Hquiet) as Hrun3.
  assert (Ha2 : after s1 (polls gap) = s1) by (unfold after; rewrite Hrun2; reflexivity).
  assert (Ho2 : output s1 (polls gap) = []) by (unfold output; rewrite Hrun2; reflexivity).
  assert (Ha3 : after s1 (polls ons) = s1) by (unfold after; rewrite Hrun3; reflexivity).
  assert (Ho3 : output s1 (polls ons) = []) by (unfold output; rewrite Hrun3; reflexivity).
  assert (Hshape : polls (o0 :: gap ++ ons) = Loop o0 :: polls gap ++ polls ons)
    by (unfold polls; cbn [map]; rewrite map_app; reflexivity).
  assert (Hafter : after s (polls (o0 :: gap ++ ons)) = s1).
  { rewrite Hshape, after_cons, after_poll. fold s1.
    rewrite after_app, Ha2, Ha3. reflexivity. }
  assert (Hout : output s (polls (o0 :: gap ++ ons)) = []).
  { rewrite Hshape, output_cons, output_poll, Hout1, after_poll. fold s1.
    rewrite output_app, Ho2, Ha2, Ho3. reflexivity. }
  destruct (loop_off_finish _ _ _ _ s1 o1 Hin1 Hnzo Htap1 Hlate)
    as (_ & ts & Hev).
  assert (Hs1 : in_session t0 (get_uptime o0) true al tr s1) by exact Hin1.
  split; [exact Hout|]. rewrite Hafter.
  split; [apply Hs1|]. split; [apply Hs1|].
  exists ts.
  replace (polls ((o0 :: gap ++ ons) ++ [o1]))
    with (polls (o0 :: gap ++ ons) ++ [Loop o1])
    by (unfold polls; rewrite map_app; reflexivity).
  rewrite output_app, events_app, Hout, Hafter, output_poll. exact Hev.
Qed.

(** ** Cold shots and sessions *)

(** What holds in place of C2: a cold shot is only under way while
    [timer_start_] is set, that is, inside a session, recognised or not. *)
Lemma call_cold_shot_in_session c s :
  (doing_cold_shot_ s = true -> timer_start_ s <> 0) ->
  doing_cold_shot_ (state_of (call c s)) = true ->
  timer_start_ (state_of (call c s)) <> 0.
Proof.
  intros Hinv. open_state s. destruct c as [env|].
  - unfold_calls. cbn.
    destruct f_timer; cbn; [|exact Hinv].
    destruct f_cold; cbn.
    + specialize (Hinv eq_refl). split_cond; cbn; intros; auto; discriminate.
    + destruct (tap_water_active env); cbn.
      * destruct (f_start =? 0) eqn:Hz; cbn; [discriminate|].
        apply Z.eqb_neq in Hz.
        repeat (split_cond; cbn); intros; auto; discriminate.
      * repeat (split_cond; cbn); intros; auto; discriminate.
  - unfold_calls. cbn. destruct f_state; cbn; exact Hinv.
Qed.

Lemma run_cold_shot_in_session cs : forall s,
  (doing_cold_shot_ s = true -> timer_start_ s <> 0) ->
  doing_cold_shot_ (after s cs) = true -> timer_start_ (after s cs) <> 0.
Proof.
  induction cs as [|c cs IH]; intros s Hinv.
  - exact Hinv.
  - rewrite after_cons. apply IH.
    unfold after. cbn [run]. unfold bind, ret.
    pose proof (call_cold_shot_in_session c s Hinv) as Hc.
    destruct (call c s) as [[[] s1] e1]. exact Hc.
Qed.

End Facts.

Section MoreFacts.

Context {K : Thresholds}.

(** ** Alternation of what is sent *)

Lemma last_cons_default {A} (x : A) l d d' : last (x :: l) d = last (x :: l) d'.
Proof.
  revert x. induction l as [|y l IH]; intros x.
  - reflexivity.
  - change (last (y :: l) d = last (y :: l) d'). apply IH.
Qed.

Lemma alternating_app b l1 l2 :
  alternating b l1 -> alternating (last l1 b) l2 -> alternating b (l1 ++ l2).
Proof.
  revert b. induction l1 as [|x l1 IH]; intros b H1 H2.
  - exact H2.
  - destruct H1 as [Hx H1]. split; [exact Hx|].
    apply IH; [exact H1|].
    destruct l1 as [|y l1]; [exact H2|].
    rewrite (last_cons_default y l1 x b). exact H2.
Qed.

Lemma last_app_default {A} (l1 l2 : list A) d :
  last (l1 ++ l2) d = last l2 (last l1 d).
Proof.
  revert d. induction l1 as [|x l1 IH]; intros d.
  - reflexivity.
  - destruct l1 as [|y l1].
    + destruct l2 as [|a l2]; [reflexivity|].
      change (last (a :: l2) d = last (a :: l2) x). apply last_cons_default.
    + change (last ((y :: l1) ++ l2) d = last l2 (last (y :: l1) d)).
      apply IH.
Qed.

(** A flag of the object that every call either keeps, sending nothing of
    the kind [obs], or flips, sending its new value: the values sent in a
    run alternate, and the flag ends as the last one sent. *)
Lemma run_alternates (flag : Shower -> bool) (obs : list Effect -> list bool) :
  (forall a b, obs (a ++ b) = obs a ++ obs b) -> obs [] = [] ->
  (forall c s,
      (obs (output_of (call c s)) = [] /\
       flag (state_of (call c s)) = flag s) \/
      (obs (output_of (call c s)) = [negb (flag s)] /\
       flag (state_of (call c s)) = negb (flag s))) ->
  forall cs s,
    alternating (flag s) (obs (output s cs)) /\
    flag (after s cs) = last (obs (output s cs)) (flag s).
Proof.
  intros Happ Hnil Hstep. induction cs as [|c cs IH]; intros s.
  - cbn. rewrite Hnil. cbn. auto.
  - rewrite (output_cons s c cs), (after_cons s c cs), Happ.
    assert (Ha : after s [c] = state_of (call c s)).
    { unfold after. cbn [run]. unfold bind, ret.
      destruct (call c s) as [[[] s1] e1]. reflexivity. }
    assert (Ho : output s [c] = output_of (call c s)).
    { unfold output. cbn [run]. unfold bind, ret.
      destruct (call c s) as [[[] s1] e1]. cbn. apply app_nil_r. }
    rewrite Ha, Ho. destruct (IH (state_of (call c s))) as [IH1 IH2].
    rewrite last_app_default.
    destruct (Hstep c s) as [[Ho' Hf]|[Ho' Hf]]; rewrite Ho'; rewrite Hf in *.
    + cbn [app last]. auto.
    + cbn [app last]. split; [split; [reflexivity|exact IH1]|exact IH2].
Qed.

Lemma call_state_change c s :
  (state_changes (output_of (call c s)) = [] /\
   old_shower_state_ (state_of (call c s)) = old_shower_state_ s) \/
  (state_changes (output_of (call c s)) = [negb (old_shower_state_ s)] /\
   old_shower_state_ (state_of (call c s)) = negb (old_shower_state_ s)).
Proof.
  open_state s. destruct c as [env|].
  - unfold_calls. cbn.
    destruct f_timer, f_cold, f_state, f_old; cbn;
      repeat (split_cond; cbn); auto.
  - unfold_calls. cbn. destruct f_state; cbn; auto.
Qed.

Lemma call_tap_command c s :
  (tap_commands (output_of (call c s)) = [] /\
   negb (doing_cold_shot_ (state_of (call c s))) = negb (doing_cold_shot_ s)) \/
  (tap_commands (output_of (call c s)) = [negb (negb (doing_cold_shot_ s))] /\
   negb (doing_cold_shot_ (state_of (call c s)))
   = negb (negb (doing_cold_shot_ s))).
Proof.
  open_state s. destruct c as [env|].
  - unfold_calls. cbn.
    destruct f_timer, f_cold, f_state, f_old; cbn;
      repeat (split_cond; cbn); auto.
  - unfold_calls. cbn. destruct f_state; cbn; auto.
Qed.

(** The state is published only when it differs from the one published
    last: in any run of polls and commands the [shower_active] values
    sent alternate, the first being the opposite of the one published
    before the run, and [old_shower_state_] ends as the last one sent. *)
Theorem published_states_alternate (s : Shower) (cs : list Call) :
  alternating (old_shower_state_ s) (state_changes (output s cs)) /\
  old_shower_state_ (after s cs)
  = last (state_changes (output s cs)) (old_shower_state_ s).
Proof.
  apply (run_alternates old_shower_state_ state_changes).
  - intros a b. apply flat_map_app.
  - reflexivity.
  - apply call_state_change.
Qed.

(** The boiler is told to close and to reopen the tap in turn: in any run
    of polls and commands the [wwtapactivated] values sent alternate,
    starting with "false" when no cold shot is under way, and a cold shot
    is under way at the end exactly if the last value sent is "false". *)
Theorem tap_commands_alternate (s : Shower) (cs : list Call) :
  alternating (negb (doing_cold_shot_ s)) (tap_commands (output s cs)) /\
  negb (doing_cold_shot_ (after s cs))
  = last (tap_commands (output s cs)) (negb (doing_cold_shot_ s)).
Proof.
  apply (run_alternates (fun s => negb (doing_cold_shot_ s)) tap_commands).
  - intros a b. apply flat_map_app.
  - reflexivity.
  - apply call_tap_command.
Qed.


(** ** What every entry point keeps *)

Lemma enter_consistent e s :
  consistent s -> consistent (state_of (enter e s)).
Proof.
  unfold consistent. intros [Hold Hunset]. open_state s.
  destruct (Z.eq_dec f_start 0) as [Hz|Hnz].
  - destruct (Hunset Hz) as (-> & -> & ->). subst f_start.
    destruct e as [st env|[env|]]; unfold enter, start; unfold_calls; cbn.
    + split_cond; cbn; repeat (split_cond; cbn); auto.
    + destruct f_timer; cbn; [|auto].
      destruct (tap_water_active env); cbn; auto.
    + auto.
  - clear Hunset. apply Z.eqb_neq in Hnz.
    destruct e as [st env|[env|]]; unfold enter, start; unfold_calls; cbn.
    + split_cond; cbn; repeat (split_cond; cbn);
        (split; [reflexivity|intros H0; apply Z.eqb_neq in Hnz; contradiction]).
    + rewrite Hnz.
      destruct f_timer, f_cold, f_state; cbn;
        repeat (split_cond; cbn);
        (split; [reflexivity
                |intros H0; try (apply Z.eqb_neq in Hnz; contradiction); auto]).
    + destruct f_state; cbn;
        (split; [reflexivity|intros H0; apply Z.eqb_neq in Hnz; contradiction]).
Qed.

(** Whatever is called, in whatever order ([start], [loop], the coldshot
    command), the object stays consistent: [old_shower_state_], the state
    published last, is [shower_state_], and while [timer_start_] is unset
    there is no recognised shower, no recorded pause and no cold shot. *)
Theorem entries_keep_consistent (es : list Entry) (s : Shower) :
  consistent s -> consistent (state_of (enter_all es s)).
Proof.
  revert s. induction es as [|e es IH]; intros s Hs.
  - exact Hs.
  - cbn [enter_all]. unfold bind.
    pose proof (enter_consistent e s Hs) as He.
    destruct (enter e s) as [[[] s1] e1]. cbn [state_of fst snd] in He.
    specialize (IH s1 He).
    destruct (enter_all es s1) as [[[] s2] e2]. exact IH.
Qed.


(** ** Summaries *)

Lemma call_summary_in_bounds c s :
  Forall summary_in_bounds (events (output_of (call c s))).
Proof.
  open_state s. destruct c as [env|].
  - pose proof (sub32_range (sub32 f_pause f_start) SHOWER_OFFSET_TIME).
    pose proof (sub32_range (sub32 (get_uptime env) f_start)
                            SHOWER_OFFSET_TIME).
    unfold_calls. cbn.
    repeat (split_cond; cbn); repeat constructor;
      repeat match goal with
             | H : (_ <? _) = true |- _ => apply Z.ltb_lt in H
             end;
      try (intros t Ht; inversion Ht; subst; assumption);
      try (intros t Ht; discriminate Ht);
      try (apply Z.div_le_mono; unfold UINT32_MAX in *; lia).
  - unfold_calls. cbn. destruct f_state; cbn; constructor.
Qed.

(** Every summary published in a run of polls and commands carries a
    duration of at least [SHOWER_MIN_DURATION / 1000] seconds (and at most
    what 32 bits of milliseconds hold), and a timestamp only if the wall
    clock was past 1576800000 (the year 2020). *)
Theorem summaries_in_bounds (s : Shower) (cs : list Call) :
  Forall summary_in_bounds (events (output s cs)).
Proof.
  revert s. induction cs as [|c cs IH]; intros s.
  - constructor.
  - rewrite (output_cons s c cs), events_app. apply Forall_app. split.
    + replace (output s [c]) with (output_of (call c s)).
      * apply call_summary_in_bounds.
      * unfold output. cbn [run]. unfold bind, ret.
        destruct (call c s) as [[[] s1] e1]. cbn. symmetry. apply app_nil_r.
    + apply IH.
Qed.


(** ** The forced cold shot *)



(** ** The timer switched off *)

Lemma call_disabled c s :
  shower_timer_ s = false -> exists f, call c s = (tt, set_force_coldshot f s, []).
Proof.
  intros Ht. open_state s. destruct c as [env|].
  - exists f_force. reflexivity.
  - unfold_calls. cbn. destruct f_state; eexists; reflexivity.
Qed.

Lemma run_disabled cs : forall s,
  shower_timer_ s = false -> exists f, run cs s = (tt, set_force_coldshot f s, []).
Proof.
  induction cs as [|c cs IH]; intros s Ht.
  - exists (force_coldshot s). open_state s. reflexivity.
  - destruct (call_disabled c s Ht) as [f Hf].
    destruct (IH (set_force_coldshot f s)) as [f' Hf'].
    { open_state s. reflexivity. }
    exists f'. cbn [run]. unfold bind. rewrite Hf, Hf'.
    open_state s. reflexivity.
Qed.

(** [start] with the timer switched off in the settings while a cold shot
    is under way: nothing is sent then or in any later run of polls and
    commands, and the cold shot stays under way; the tap is not reopened. *)
Theorem timer_off_during_cold_shot (s : Shower) (settings : WebSettings)
        (env : Env) (cs : list Call) :
  doing_cold_shot_ s = true ->
  shower_timer settings = false ->
  let s' := state_of (start settings env s) in
  output_of (start settings env s) = [] /\
  output s' cs = [] /\
  doing_cold_shot_ (after s' cs) = true.
Proof.
  intros Hd Hoff s'.
  assert (Hs' : s' = set_config false (shower_alert settings)
                       (mul32 (shower_alert_trigger settings) 60000)
                       (mul32 (shower_alert_coldshot settings) 1000) s).
  { subst s'. unfold start. unfold_calls. cbn. rewrite Hoff. reflexivity. }
  split.
  - unfold start. unfold_calls. cbn. rewrite Hoff. reflexivity.
  - destruct (run_disabled cs s') as [f Hrun].
    { rewrite Hs'. reflexivity. }
    unfold output, after. rewrite Hrun. cbn [state_of output_of fst snd].
    split; [reflexivity|]. rewrite Hs'. open_state s. reflexivity.
Qed.


(** ** [start] *)


(** ** Home Assistant discovery *)

(** In a poll the discovery topics are queued only together with a state
    change, only if Home Assistant is enabled and they are not yet done,
    and then all three in order; [ha_configdone_] then takes the result of
    queueing the first, so a failed attempt is made again at the next
    state change. *)
Theorem discovery_follows_state_change (s : Shower) (env : Env) :
  let out := output_of (loop env s) in
  let due := ha_enabled env && negb (ha_configdone_ s) in
  ha_queued out
  = (if due then flat_map (fun _ => ha_topics) (state_changes out) else []) /\
  ha_configdone_ (state_of (loop env s))
  = match state_changes out with
    | [] => ha_configdone_ s
    | _ :: _ => if due then queue_ha_result env else ha_configdone_ s
    end.
Proof.
  open_state s. unfold_calls. cbn.
  destruct f_timer, f_cold, f_state, f_old, f_ha, (ha_enabled env); cbn;
    repeat (split_cond; cbn); auto.
Qed.

Lemma call_discovery_done c s :
  ha_configdone_ s = true ->
  ha_queued (output_of (call c s)) = [] /\
  ha_configdone_ (state_of (call c s)) = true.
Proof.
  intros Hdone. open_state s. destruct c as [env|].
  - unfold_calls. cbn.
    destruct f_timer, f_cold, f_state, f_old; cbn;
      repeat (first [rewrite andb_false_r | split_cond]; cbn); auto.
  - unfold_calls. cbn. destruct f_state; cbn; auto.
Qed.

(** Once the discovery topics are done, no run of polls and commands
    queues them again. *)
Theorem discovery_done_once (s : Shower) (cs : list Call) :
  ha_configdone_ s = true ->
  ha_queued (output s cs) = [] /\ ha_configdone_ (after s cs) = true.
Proof.
  revert s. induction cs as [|c cs IH]; intros s Hdone.
  - split; [reflexivity|exact Hdone].
  - destruct (call_discovery_done c s Hdone) as [Hq Hd].
    rewrite (output_cons s c cs), (after_cons s c cs).
    assert (Ha : after s [c] = state_of (call c s)).
    { unfold after. cbn [run]. unfold bind, ret.
      destruct (call c s) as [[[] s1] e1]. reflexivity. }
    assert (Ho : output s [c] = output_of (call c s)).
    { unfold output. cbn [run]. unfold bind, ret.
      destruct (call c s) as [[[] s1] e1]. cbn. apply app_nil_r. }
    rewrite Ha, Ho. unfold ha_queued in *. rewrite flat_map_app, Hq.
    apply IH, Hd.
Qed.

(** ** The closing poll *)

(** The poll that finds the tap off for more than [SHOWER_PAUSE_TIME]
    since the recorded pause closes the session whatever its history: it
    publishes the summary that the time from [timer_start_] to
    [timer_pause_] calls for, recognised shower or not, then "off" if "on"
    was published, and resets the timers. *)
Theorem closing_poll (s : Shower) (env : Env) :
  shower_timer_ s = true ->
  doing_cold_shot_ s = false ->
  tap_water_active env = false ->
  timer_pause_ s <> 0 ->
  SHOWER_PAUSE_TIME < sub32 (get_uptime env) (timer_pause_ s) ->
  let s' := state_of (loop env s) in
  events (output_of (loop env s))
  = summary_for (sub32 (timer_pause_ s) (timer_start_ s))
                (if 1576800000 <? wall_time env
                 then Some (wall_time env) else None)
    ++ (if old_shower_state_ s then [StateChanged false] else []) /\
  timer_start_ s' = 0 /\ timer_pause_ s' = 0 /\
  alert_timer_start_ s' = 0 /\
  shower_state_ s' = false /\ old_shower_state_ s' = false.
Proof.
  intros Ht Hd Htap Hp Hlate. open_state s.
  pose proof SHOWER_OFFSET_TIME_u32 as Hoff.
  pose proof (sub32_range f_pause f_start) as Hrange.
  cbv zeta. unfold_calls. rewrite Htap. cbn. repeat settle_ltb.
  rewrite andb_false_r. cbn. repeat settle_ltb. cbn.
  unfold summary_for.
  destruct (SHOWER_OFFSET_TIME <? sub32 f_pause f_start) eqn:Hgt; cbn.
  - apply Z.ltb_lt in Hgt.
    rewrite (sub32_no_borrow (sub32 f_pause f_start) SHOWER_OFFSET_TIME) by lia.
    destruct (SHOWER_MIN_DURATION <? sub32 f_pause f_start - SHOWER_OFFSET_TIME);
      cbn; destruct f_old; cbn; repeat (split_cond; cbn); auto 10.
  - destruct f_old; cbn; repeat (split_cond; cbn); auto 10.
Qed.


(** A session is closed only by a poll that reads the tap off, outside a
    cold shot: a poll that publishes a summary or "off", or that takes
    [timer_start_] from set to unset, has read the tap off and found no
    cold shot under way. *)
Theorem closing_needs_tap_off (s : Shower) (env : Env) :
  (exists d ts, In (SessionSummary d ts) (events (output_of (loop env s)))) \/
  In (StateChanged false) (events (output_of (loop env s))) \/
  (timer_start_ s <> 0 /\ timer_start_ (state_of (loop env s)) = 0) ->
  tap_water_active env = false /\ doing_cold_shot_ s = false.
Proof.
  open_state s. unfold_calls. cbn.
  destruct f_timer, f_cold, (tap_water_active env); cbn;
    repeat (split_cond; cbn);
    intros [(d & ts & H)|[H|[H1 H2]]]; auto;
    repeat (destruct H as [H|H]; try discriminate H);
    try contradiction;
    try (apply Z.eqb_neq in Heqb; contradiction);
    match goal with
    | H : (?x =? 0) = false, H' : ?x = 0 |- _ =>
        apply Z.eqb_neq in H; contradiction
    | H : (?x =? 0) = true, H' : ?x <> 0 |- _ =>
        apply Z.eqb_eq in H; contradiction
    | _ => idtac
    end.
Qed.

End MoreFacts.

(** ** Strings of the discovery documents *)

Section DiscoveryStrings.

Local Open Scope string_scope.

Lemma length_app (s t : string) :
  String.length (s ++ t) = (String.length s + String.length t)%nat.
Proof. induction s as [|c s IH]; cbn; [reflexivity|]. rewrite IH. reflexivity. Qed.

Lemma app_assoc_string (s t u : string) : (s ++ t) ++ u = s ++ (t ++ u).
Proof. induction s as [|c s IH]; cbn; [reflexivity|]. rewrite IH. reflexivity. Qed.

Lemma length_take n : forall s,
  String.length (take n s) = Nat.min n (String.length s).
Proof.
  induction n as [|n IH]; intros [|c s]; cbn; try reflexivity.
  rewrite IH. reflexivity.
Qed.

Lemma take_all n : forall s, (String.length s <= n)%nat -> take n s = s.
Proof.
  induction n as [|n IH]; intros [|c s] H; cbn in *; try reflexivity.
  - lia.
  - rewrite IH by lia. reflexivity.
Qed.

(** Keeping all of [s] is the same as [s] being short enough. *)
Lemma take_all_iff n s : take n s = s <-> (String.length s <= n)%nat.
Proof.
  split; [|apply take_all]. intros H.
  pose proof (length_take n s) as Hl. rewrite H in Hl. lia.
Qed.

Lemma take_app_prefix n : forall p x,
  (n <= String.length p)%nat -> take n (p ++ x) = take n p.
Proof.
  induction n as [|n IH]; intros [|c p] x H; cbn in *; try reflexivity.
  - lia.
  - rewrite IH by lia. reflexivity.
Qed.

(** Two continuations that differ in their first character still differ
    after a common prefix [p], if the cut comes after [p]. *)
Lemma take_app_differ n : forall p c1 x1 c2 x2,
  (String.length p < n)%nat -> c1 <> c2 ->
  take n (p ++ String c1 x1) <> take n (p ++ String c2 x2).
Proof.
  induction n as [|n IH]; intros [|c p] c1 x1 c2 x2 H Hc; cbn in *; try lia.
  - intros Heq. inversion Heq. contradiction.
  - intros Heq. inversion Heq as [Heq']. revert Heq'. apply IH; [lia|exact Hc].
Qed.


Lemma ids_differ b c1 x1 c2 x2 :
  (String.length b <= 60)%nat -> c1 <> c2 ->
  snprintf 70 (b ++ "_shower_" ++ String c1 x1)
  <> snprintf 70 (b ++ "_shower_" ++ String c2 x2).
Proof.
  intros Hb Hc. unfold snprintf. rewrite <- !app_assoc_string.
  apply take_app_differ; [|exact Hc].
  rewrite length_app. cbn. lia.
Qed.

(** The three documents get pairwise distinct [uniq_id]s exactly when the
    base name has at most 60 characters: the identifiers are cut to the 69
    characters that fit [char str[70]], and from 61 characters on the cut
    falls inside the common part of "<basename>_shower_duration" and
    "<basename>_shower_timestamp". *)
Theorem discovery_ids_distinct (m : MqttNames) :
  NoDup (map (fun t => uniq_id (ha_doc m t)) ha_topics)
  <-> (String.length (basename m) <= 60)%nat.
Proof.
  cbn [map ha_topics ha_doc uniq_id].
  set (b := basename m).
  change "_shower_active" with ("_shower_" ++ "active").
  change "_shower_duration" with ("_shower_" ++ "duration").
  change "_shower_timestamp" with ("_shower_" ++ "timestamp").
  split.
  - intros Hnd. destruct (Nat.le_gt_cases (String.length b) 60) as [H|H];
      [exact H|exfalso].
    inversion Hnd as [|? ? _ Hnd']. inversion Hnd' as [|? ? Hnotin _].
    apply Hnotin. left. unfold snprintf.
    change "_shower_duration" with ("_shower_" ++ "duration").
    change "_shower_timestamp" with ("_shower_" ++ "timestamp").
    rewrite <- !app_assoc_string.
    rewrite (take_app_prefix _ (b ++ "_shower_") "timestamp")
      by (rewrite length_app; cbn; lia).
    rewrite (take_app_prefix _ (b ++ "_shower_") "duration")
      by (rewrite length_app; cbn; lia).
    reflexivity.
  - intros Hb.
    assert (Hdt : snprintf 70 (b ++ "_shower_" ++ "duration")
                  <> snprintf 70 (b ++ "_shower_" ++ "timestamp"))
      by (apply ids_differ; [exact Hb|discriminate]).
    assert (Had : (if entity_multi_short m
                   then snprintf 70 (b ++ "_shower_" ++ "active")
                   else snprintf 70 "shower_active")
                  <> snprintf 70 (b ++ "_shower_" ++ "duration")).
    { destruct (entity_multi_short m).
      - apply ids_differ; [exact Hb|discriminate].
      - intros Heq. apply (f_equal String.length) in Heq. revert Heq.
        unfold snprintf. rewrite !length_take, !length_app.
        cbn -[Nat.min Nat.sub]. lia. }
    assert (Hat : (if entity_multi_short m
                   then snprintf 70 (b ++ "_shower_" ++ "active")
                   else snprintf 70 "shower_active")
                  <> snprintf 70 (b ++ "_shower_" ++ "timestamp")).
    { destruct (entity_multi_short m).
      - apply ids_differ; [exact Hb|discriminate].
      - intros Heq. apply (f_equal String.length) in Heq. revert Heq.
        unfold snprintf. rewrite !length_take, !length_app.
        cbn -[Nat.min Nat.sub]. lia. }
    apply NoDup_cons.
    { intros [H|[H|[]]]; [apply Had|apply Hat]; symmetry; exact H. }
    apply NoDup_cons.
    { intros [H|[]]. apply Hdt. symmetry. exact H. }
    apply NoDup_cons; [intros []|apply NoDup_nil].
Qed.

(** The state topic written into a document is the whole
    "<base>/shower_active" (or "<base>/shower_data") exactly when it fits
    [char stat_t[50]]: a base topic of at most 35 (or 37) characters;
    a longer one is cut. *)
Theorem discovery_state_topic_fits (m : MqttNames) :
  (stat_t (ha_doc m shower_active_config) = base m ++ "/shower_active"
   <-> (String.length (base m) <= 35)%nat) /\
  (stat_t (ha_doc m shower_duration_config) = base m ++ "/shower_data"
   <-> (String.length (base m) <= 37)%nat) /\
  (stat_t (ha_doc m shower_timestamp_config) = base m ++ "/shower_data"
   <-> (String.length (base m) <= 37)%nat).
Proof.
  cbn [ha_doc stat_t]. unfold snprintf.
  repeat split; intros H;
    first [ apply take_all_iff in H; rewrite length_app in H; cbn in H; lia
          | apply take_all_iff; rewrite length_app; cbn; lia ].
Qed.

End DiscoveryStrings.


(** * The properties at concrete inputs

    All under [spec_thresholds]: minimum 180 s, pause 15 s, offset 5 s. *)

(** C1 as stated fails: the tap is on for 184 s (more than the minimum
    180 s) and then off for 16 s (more than the pause of 15 s), the
    session is recognised and closed, and no summary is published, where
    the claim promises one with duration (184000 - 5000) / 1000 = 179 s. *)
Lemma no_summary_within_offset_of_min :
  events (output (K := spec_thresholds) (started false 10 10) activity_184s)
  = [StateChanged true; StateChanged false]
  /\ ~ (exists ts,
           In (SessionSummary 179 ts)
              (events (output (K := spec_thresholds) (started false 10 10)
                              activity_184s))).
Proof.
  assert (H : events (output (K := spec_thresholds) (started false 10 10)
                             activity_184s)
              = [StateChanged true; StateChanged false])
    by (vm_compute; reflexivity).
  split; [exact H|]. rewrite H. intros [ts [Hin|[Hin|[]]]]; discriminate Hin.
Qed.

Lemma session_summary_beyond_offset_witness :
  exists ts,
    events (output (K := spec_thresholds) (started false 10 10)
              (polls (env_at true 1000
                      :: [env_at true 100000; env_at true 200000]
                      ++ env_at false 201000 :: [env_at false 220000])))
    = [StateChanged true] ++ summary_for (K := spec_thresholds) 200000 ts
      ++ [StateChanged false].
Proof.
  apply (session_summary_beyond_offset (K := spec_thresholds)
           (started false 10 10) (env_at true 1000)
           [env_at true 100000; env_at true 200000]
           (env_at false 201000) [env_at false 220000]).
  - reflexivity.
  - repeat split; reflexivity.
  - reflexivity.
  - cbn. lia.
  - repeat constructor.
  - apply Exists_cons_tl, Exists_cons_hd. vm_compute. reflexivity.
  - intros H. discriminate H.
  - reflexivity.
  - cbn. lia.
  - repeat constructor.
  - apply Exists_cons_hd. vm_compute. reflexivity.
Defined.

(** C2 fails on the code: the command is accepted during a recognised
    shower, the tap is closed before the next poll, the session ends with
    the force flag still set, and the second poll of the next tap activity
    starts a cold shot although no shower is recognised. *)
Lemma stale_force_flag_cold_shot :
  let s := after (K := spec_thresholds) (started false 10 10)
                 command_then_tap_closed in
  doing_cold_shot_ s = true /\ shower_state_ s = false.
Proof. vm_compute. split; reflexivity. Qed.

(** The same with no command at all: an alert trigger of 1 min, below the
    minimum duration, fires before the shower is recognised. *)
Lemma early_alert_cold_shot :
  let s := after (K := spec_thresholds) (started true 1 10) activity_62s in
  doing_cold_shot_ s = true /\ shower_state_ s = false.
Proof. vm_compute. split; reflexivity. Qed.

(** C3 fails on the code: after a gap of 5 s the session goes on, but
    [timer_pause_] keeps the time of the gap: the first poll with the tap
    off 200 s later closes the session at once and reports the 195 s that
    came before the gap, where the same 400 s without the gap report
    395 s. *)
Lemma gap_truncates_reported_duration :
  events (output (K := spec_thresholds) (started false 10 10) shower_with_gap)
  = [StateChanged true; SessionSummary 195 None; StateChanged false]
  /\ events (output (K := spec_thresholds) (started false 10 10)
                    shower_without_gap)
     = [StateChanged true; SessionSummary 395 None; StateChanged false].
Proof. split; vm_compute; reflexivity. Qed.

(** A request pending with no shower recognised is cleared; a request in
    a recognised shower with none pending is set. *)
Lemma coldshot_command_gated_witness :
  let pending :=
    mkShower true false 600000 10000 false false 0 0 0 0 false true false in
  (fst (fst (coldshot_command pending))
   = ("Coldshot failed. Shower not active"%string, true)
   /\ force_coldshot (state_of (coldshot_command pending)) = false)
  /\ (fst (fst (coldshot_command recognised_shower)) = ("OK"%string, true)
      /\ force_coldshot (state_of (coldshot_command recognised_shower))
         = true).
Proof.
  intros pending. split.
  - apply (proj1 (coldshot_command_gated pending)). reflexivity.
  - apply (proj1 (proj2 (coldshot_command_gated recognised_shower))).
    reflexivity.
Defined.

Lemma cold_shot_cycle_witness :
  output (K := spec_thresholds) recognised_shower
         (Loop (env_at true 250000)
          :: [poll_at false 255000; Coldshot; poll_at true 260000]
          ++ [Loop (env_at false 261000)])
  = [Command_call_wwtapactivated false; Command_call_wwtapactivated true].
Proof.
  apply (cold_shot_cycle (K := spec_thresholds) recognised_shower
           (env_at true 250000) (env_at false 261000)
           [poll_at false 255000; Coldshot; poll_at true 260000]).
  - reflexivity.
  - vm_compute. reflexivity.
  - repeat constructor; vm_compute; discriminate.
  - vm_compute. reflexivity.
Defined.

Lemma short_activity_never_recognised_witness :
  ~ In (StateChanged true)
       (events (output (K := spec_thresholds) (started false 10 10)
                  (polls ([env_at true 1000; env_at true 100000]
                          ++ [env_at false 101000; env_at false 120000])))).
Proof.
  apply (short_activity_never_recognised (K := spec_thresholds)).
  - reflexivity.
  - reflexivity.
  - reflexivity.
  - repeat constructor.
  - repeat constructor.
  - repeat constructor.
Defined.

Lemma closed_session_polls_idempotent_witness :
  run (K := spec_thresholds)
      (polls [env_at false 21000; env_at false 22000])
      (after (K := spec_thresholds) paused_session [Loop (env_at false 20000)])
  = (tt, after (K := spec_thresholds) paused_session [Loop (env_at false 20000)],
     []).
Proof.
  apply (closed_session_polls_idempotent (K := spec_thresholds)).
  - vm_compute. discriminate.
  - vm_compute. reflexivity.
  - repeat constructor.
Defined.

Lemma loop_disabled_is_noop_witness :
  loop (K := spec_thresholds) (env_at true 5000) initial = (tt, initial, [])
  /\ forall env',
      loop (K := spec_thresholds) env' initial
      = loop (K := spec_thresholds) (env_at true 5000) initial.
Proof.
  apply (loop_disabled_is_noop (K := spec_thresholds) initial (env_at true 5000)).
  reflexivity.
Defined.

Lemma cold_shot_repeats_witness :
  let s2 := after (K := spec_thresholds) recognised_shower
                  (Loop (env_at true 250000)
                   :: [poll_at false 255000; Coldshot; poll_at true 260000]
                   ++ [Loop (env_at false 261000)]) in
  doing_cold_shot_ s2 = false /\
  shower_state_ s2 = true /\
  shower_alert_trigger_ s2 < sub32 (get_uptime (env_at true 262000)) (timer_start_ s2) /\
  output (K := spec_thresholds) s2 [Loop (env_at true 262000)]
  = [Command_call_wwtapactivated false] /\
  doing_cold_shot_ (after (K := spec_thresholds) s2 [Loop (env_at true 262000)])
  = true.
Proof.
  apply (cold_shot_repeats (K := spec_thresholds) recognised_shower
           (env_at true 250000) (env_at false 261000) (env_at true 262000)
           [poll_at false 255000; Coldshot; poll_at true 260000]).
  - reflexivity.
  - reflexivity.
  - reflexivity.
  - vm_compute. discriminate.
  - reflexivity.
  - reflexivity.
  - vm_compute. reflexivity.
  - repeat constructor; vm_compute; discriminate.
  - vm_compute. reflexivity.
  - reflexivity.
  - vm_compute. discriminate.
Defined.

(** The true times 2^32 - 100000 and 2^32 + 100000: the counter reads
    4294867296 and 100000, and every test sees the 200 s in between. *)
Lemma elapsed_time_wraparound_safe_witness :
  sub32 (wrap32 4295067296) (wrap32 4294867296) = 4295067296 - 4294867296 /\
  shower_state_ (state_of (loop (K := spec_thresholds) (env_at true 100000)
                                started_before_wrap)) = true /\
  doing_cold_shot_ (state_of (loop (K := spec_thresholds) (env_at true 100000)
                                   recognised_across_wrap)) = true /\
  timer_pause_ (state_of (loop (K := spec_thresholds) (env_at false 100000)
                               paused_before_wrap)) = 0 /\
  doing_cold_shot_ (state_of (loop (K := spec_thresholds) (env_at true 100000)
                                   cold_shot_before_wrap)) = false.
Proof.
  destruct (elapsed_time_wraparound_safe (K := spec_thresholds)
              4294867296 4295067296) as [_ Hfit].
  destruct Hfit as (Hsub & Hmin & Halert & Hpause & Hcold).
  { unfold UINT32_MAX. lia. }
  split; [exact Hsub|]. split; [|split; [|split]].
  - apply (Hmin started_before_wrap (env_at true 100000));
      first [reflexivity | vm_compute; discriminate].
  - apply (Halert recognised_across_wrap (env_at true 100000));
      first [reflexivity | vm_compute; discriminate].
  - apply (Hpause paused_before_wrap (env_at false 100000));
      first [reflexivity | vm_compute; discriminate].
  - apply (Hcold cold_shot_before_wrap (env_at true 100000)); reflexivity.
Defined.

(** The scenario of the spec, alert after 10 min: recognised, then closed
    with a summary of 195 s. *)
Example shower_200s_summary :
  output (K := spec_thresholds) (started true 10 10) shower_200s
  = [Mqtt_publish_shower_active true; Mqtt_publish_shower_data 195 None;
     Mqtt_publish_shower_active false].
Proof. vm_compute. reflexivity. Qed.

(** A shower of 640 s under the same alert: the first cold shot starts
    past 600 s, and each one that ends is followed by the next. *)
Example shower_640s_cold_shots :
  output (K := spec_thresholds) (started true 10 10) shower_640s
  = [Mqtt_publish_shower_active true;
     Command_call_wwtapactivated false; Command_call_wwtapactivated true;
     Command_call_wwtapactivated false; Command_call_wwtapactivated true;
     Command_call_wwtapactivated false; Command_call_wwtapactivated true;
     Command_call_wwtapactivated false].
Proof. vm_compute. reflexivity. Qed.

(** * The further properties at concrete inputs *)

Lemma entries_keep_consistent_witness :
  consistent
    (state_of
       (enter_all (K := spec_thresholds)
          [Start (mkWebSettings true true 4 10) (env_at false 0);
           Called (poll_at true 1000); Called (poll_at true 182000);
           Called Coldshot; Called (poll_at true 183000);
           Start (mkWebSettings true false 4 10) (env_at false 0)]
          initial)).
Proof.
  apply (entries_keep_consistent (K := spec_thresholds)).
  split; [reflexivity|]. intros _. repeat split.
Defined.



Lemma timer_off_during_cold_shot_witness :
  let s' := state_of (start (mkWebSettings false true 4 10) (env_at true 251000)
                            in_cold_shot) in
  output_of (start (mkWebSettings false true 4 10) (env_at true 251000)
                   in_cold_shot) = [] /\
  output (K := spec_thresholds) s'
         [poll_at true 300000; Coldshot; poll_at false 400000] = [] /\
  doing_cold_shot_
    (after (K := spec_thresholds) s'
           [poll_at true 300000; Coldshot; poll_at false 400000]) = true.
Proof.
  apply (timer_off_during_cold_shot (K := spec_thresholds) in_cold_shot
           (mkWebSettings false true 4 10) (env_at true 251000)
           [poll_at true 300000; Coldshot; poll_at false 400000]).
  - reflexivity.
  - reflexivity.
Defined.


Lemma discovery_done_once_witness :
  ha_queued (output (K := spec_thresholds) started_with_ha
               [ha_poll_at true 1000; ha_poll_at true 182000;
                ha_poll_at false 183000; ha_poll_at false 199000]) = []
  /\ ha_configdone_
       (after (K := spec_thresholds) started_with_ha
          [ha_poll_at true 1000; ha_poll_at true 182000;
           ha_poll_at false 183000; ha_poll_at false 199000]) = true.
Proof.
  apply (discovery_done_once (K := spec_thresholds) started_with_ha).
  reflexivity.
Defined.

Lemma closing_poll_witness :
  let env := env_at false 20000 in
  let s' := state_of (loop (K := spec_thresholds) env paused_session) in
  events (output_of (loop (K := spec_thresholds) env paused_session))
  = summary_for (K := spec_thresholds)
                (sub32 (timer_pause_ paused_session)
                       (timer_start_ paused_session))
                (if 1576800000 <? wall_time env
                 then Some (wall_time env) else None)
    ++ (if old_shower_state_ paused_session then [StateChanged false] else []) /\
  timer_start_ s' = 0 /\ timer_pause_ s' = 0 /\
  alert_timer_start_ s' = 0 /\
  shower_state_ s' = false /\ old_shower_state_ s' = false.
Proof.
  apply (closing_poll (K := spec_thresholds) paused_session (env_at false 20000)).
  - reflexivity.
  - reflexivity.
  - reflexivity.
  - vm_compute. discriminate.
  - vm_compute. reflexivity.
Defined.

Lemma gap_closes_at_first_pause_witness :
  let o0 := env_at false 200000 in
  let gap := [env_at false 205000] in
  let ons := [env_at true 206000; env_at true 300000] in
  let o1 := env_at false 301000 in
  output (K := spec_thresholds) recognised_no_alert (polls (o0 :: gap ++ ons))
  = [] /\
  timer_start_ (after (K := spec_thresholds) recognised_no_alert
                      (polls (o0 :: gap ++ ons))) = 1000 /\
  timer_pause_ (after (K := spec_thresholds) recognised_no_alert
                      (polls (o0 :: gap ++ ons))) = get_uptime o0 /\
  exists ts,
    events (output (K := spec_thresholds) recognised_no_alert
                   (polls ((o0 :: gap ++ ons) ++ [o1])))
    = summary_for (K := spec_thresholds) (sub32 (get_uptime o0) 1000) ts
      ++ [StateChanged false].
Proof.
  apply (gap_closes_at_first_pause (K := spec_thresholds)
           1000 false 600000 recognised_no_alert
           (env_at false 200000) [env_at false 205000]
           [env_at true 206000; env_at true 300000] (env_at false 301000)).
  - repeat split.
  - discriminate.
  - reflexivity.
  - cbn. discriminate.
  - repeat constructor. vm_compute. discriminate.
  - repeat constructor.
  - intros H. discriminate H.
  - reflexivity.
  - vm_compute. reflexivity.
Defined.

Lemma closing_needs_tap_off_witness :
  tap_water_active (env_at false 20000) = false
  /\ doing_cold_shot_ paused_session = false.
Proof.
  apply (closing_needs_tap_off (K := spec_thresholds) paused_session
           (env_at false 20000)).
  right. right. split.
  - vm_compute. discriminate.
  - vm_compute. reflexivity.
Defined.
